(** * update-cloud-translation-glossary: a model of [src/index.ts]

    The action deletes a translation glossary, creates it again from a file in
    cloud storage, pauses, and inspects the long-running operation once.  The
    TypeScript source is embedded shallowly: strings are [string], numbers in
    the integer range are [Z], [undefined] is [None], the CI runtime and the
    remote service are an explicit [World], and every observable effect (log
    lines, input reads, network calls, pauses, outputs, the failure signal) is
    an [event] appended to a trace. *)

From stdpp Require Import base strings list gmap pretty.
From Stdlib Require Import ZArith Ascii String.

Local Open Scope string_scope.
Local Open Scope list_scope.
Local Open Scope Z_scope.
Local Set Warnings "-register-all".

(** ** JavaScript primitives used by the source *)

Module JS.

(** White space removed by [String.prototype.trim] and skipped by [parseInt]
    (the ASCII part of it: TAB, LF, VT, FF, CR and SP). *)
Definition is_ws (c : ascii) : bool :=
  let n := nat_of_ascii c in
  ((9 <=? n)%nat && (n <=? 13)%nat) || (n =? 32)%nat.

Fixpoint trimStart (s : string) : string :=
  match s with
  | String c r => if is_ws c then trimStart r else s
  | EmptyString => EmptyString
  end.

Definition trimEnd (s : string) : string :=
  String.rev (trimStart (String.rev s)).

(** [s.trim()] *)
Definition trim (s : string) : string := trimEnd (trimStart s).

(** [s.split(sep)] for a one-character separator: the pieces between the
    separators, in order; a string without separator is its only piece, and
    the empty string splits into one empty piece. *)
Fixpoint split (sep : ascii) (s : string) : list string :=
  match s with
  | EmptyString => [EmptyString]
  | String c r =>
      if Ascii.eqb c sep then EmptyString :: split sep r
      else match split sep r with
           | piece :: pieces => String c piece :: pieces
           | [] => [String c EmptyString]
           end
  end.

(** The value of [c] as a digit in radix [R], when it is one. *)
Definition digit_of (R : Z) (c : ascii) : option Z :=
  let n := Z.of_nat (nat_of_ascii c) in
  let d := if (48 <=? n) && (n <=? 57) then Some (n - 48)
           else if (97 <=? n) && (n <=? 122) then Some (n - 87)
           else if (65 <=? n) && (n <=? 90) then Some (n - 55)
           else None in
  match d with
  | Some v => if v <? R then Some v else None
  | None => None
  end.

(** The longest prefix of radix-[R] digits of [s], read as a number;
    [acc] is [None] until a first digit has been read. *)
Fixpoint digits (R : Z) (s : string) (acc : option Z) : option Z :=
  match s with
  | EmptyString => acc
  | String c r =>
      match digit_of R c with
      | Some d => digits R r (Some (default 0 acc * R + d))
      | None => acc
      end
  end.

(** [parseInt(s)] with no radix argument; [None] is NaN.  The result is the
    mathematical integer the digits denote.  JavaScript returns it as a
    Number, which holds it exactly when it lies between -2^53 and 2^53;
    beyond that JavaScript rounds, and the model does not follow it. *)
Definition parseInt (s : string) : option Z :=
  let S0 := trimStart s in
  let '(sign, S1) :=
    match S0 with
    | String "-" r => (-1, r)
    | String "+" r => (1, r)
    | _ => (1, S0)
    end in
  let '(R, S2) :=
    match S1 with
    | String "0" (String "x" r) => (16, r)
    | String "0" (String "X" r) => (16, r)
    | _ => (10, S1)
    end in
  match digits R S2 None with
  | Some m => Some (sign * m)
  | None => None
  end.

(** The values [JSON.stringify] is applied to in the source. *)
Inductive json :=
| JStr (s : string)
| JNum (n : Z)
| JArr (items : list json)
| JObj (fields : list (string * json)).

Definition dquote : string := String "034" EmptyString.
Definition backslash : string := String "092" EmptyString.

Definition hex_digit (n : nat) : ascii :=
  ascii_of_nat (if (n <? 10)%nat then 48 + n else 87 + n)%nat.

(** One character inside a JSON string literal. *)
Definition escape (c : ascii) : string :=
  let n := nat_of_ascii c in
  if (n =? 34)%nat then backslash +:+ dquote
  else if (n =? 92)%nat then backslash +:+ backslash
  else if (n =? 8)%nat then backslash +:+ "b"
  else if (n =? 9)%nat then backslash +:+ "t"
  else if (n =? 10)%nat then backslash +:+ "n"
  else if (n =? 12)%nat then backslash +:+ "f"
  else if (n =? 13)%nat then backslash +:+ "r"
  else if (n <? 32)%nat then
    backslash +:+ "u00" +:+
    String (hex_digit (n / 16)) (String (hex_digit (n mod 16)) EmptyString)
  else String c EmptyString.

Fixpoint escaped (s : string) : string :=
  match s with
  | EmptyString => EmptyString
  | String c r => escape c +:+ escaped r
  end.

(** [JSON.stringify] of a string. *)
Definition quote (s : string) : string := dquote +:+ escaped s +:+ dquote.

(** [JSON.stringify(v)], with no indentation. *)
Fixpoint stringify (v : json) : string :=
  match v with
  | JStr s => quote s
  | JNum n => pretty n
  | JArr items => "[" +:+ String.concat "," (map stringify items) +:+ "]"
  | JObj fields =>
      "{" +:+
      String.concat ","
        (map (fun kv => match kv with
                        | (k, x) => quote k +:+ ":" +:+ stringify x
                        end) fields)
      +:+ "}"
  end.

(** A property [k: v] of an object literal; [JSON.stringify] leaves out a
    property whose value is [undefined]. *)
Definition prop (k : string) (v : option json) : list (string * json) :=
  match v with
  | Some x => [(k, x)]
  | None => []
  end.

(** [obj[k]] on a serialised object. *)
Fixpoint field (k : string) (fields : list (string * json)) : option json :=
  match fields with
  | [] => None
  | (k', x) :: rest => if String.eqb k k' then Some x else field k rest
  end.

Definition get (k : string) (v : json) : option json :=
  match v with
  | JObj fields => field k fields
  | _ => None
  end.

(** A value interpolated in a template literal: [undefined] prints as the
    word. *)
Definition show (v : option string) : string := default "undefined" v.

(** [!v] for a value that is a string or [undefined]. *)
Definition falsy (v : option string) : bool :=
  match v with
  | None => true
  | Some s => String.eqb s EmptyString
  end.

(** [s] between double quotes. *)
Definition quoted (s : string) : string := dquote +:+ s +:+ dquote.

(** A character that a string literal holds as it is: no control
    character, not the double quote, not the backslash. *)
Definition plain (c : ascii) : Prop :=
  (32 <= nat_of_ascii c)%nat /\ nat_of_ascii c <> 34%nat /\
  nat_of_ascii c <> 92%nat.

(** The value of a hexadecimal digit. *)
Definition hex_value (c : ascii) : option nat :=
  let n := nat_of_ascii c in
  if (48 <=? n)%nat && (n <=? 57)%nat then Some (n - 48)%nat
  else if (97 <=? n)%nat && (n <=? 102)%nat then Some (n - 87)%nat
  else if (65 <=? n)%nat && (n <=? 70)%nat then Some (n - 55)%nat
  else None.

(** The character the escape [\c] stands for in a JSON string literal
    ([\u] apart). *)
Definition unescape (c : ascii) : option ascii :=
  let n := nat_of_ascii c in
  if (n =? 34)%nat then Some c
  else if (n =? 92)%nat then Some c
  else if (n =? 47)%nat then Some c
  else if (n =? 98)%nat then Some (ascii_of_nat 8)
  else if (n =? 116)%nat then Some (ascii_of_nat 9)
  else if (n =? 110)%nat then Some (ascii_of_nat 10)
  else if (n =? 102)%nat then Some (ascii_of_nat 12)
  else if (n =? 114)%nat then Some (ascii_of_nat 13)
  else None.

(** Reading a JSON string literal, as [JSON.parse] does, from just after
    its opening quote: the string it denotes and the text after its
    closing quote.  A raw control character is refused; of the [\uXXXX]
    escapes those below 0080 are read. *)
Fixpoint read_literal (s : string) : option (string * string) :=
  match s with
  | EmptyString => None
  | String c r =>
      let n := nat_of_ascii c in
      if (n =? 34)%nat then Some (EmptyString, r)
      else if (n =? 92)%nat then
        match r with
        | EmptyString => None
        | String e r1 =>
            if (nat_of_ascii e =? 117)%nat then
              match r1 with
              | String h3 (String h2 (String h1 (String h0 r2))) =>
                  match hex_value h3, hex_value h2, hex_value h1, hex_value h0 with
                  | Some 0%nat, Some 0%nat, Some a, Some b =>
                      if (a <? 8)%nat then
                        match read_literal r2 with
                        | Some (t, rest) =>
                            Some (String (ascii_of_nat (16 * a + b)) t, rest)
                        | None => None
                        end
                      else None
                  | _, _, _, _ => None
                  end
              | _ => None
              end
            else
              match unescape e with
              | Some x =>
                  match read_literal r1 with
                  | Some (t, rest) => Some (String x t, rest)
                  | None => None
                  end
              | None => None
              end
        end
      else if (n <? 32)%nat then None
      else
        match read_literal r with
        | Some (t, rest) => Some (String c t, rest)
        | None => None
        end
  end.

(** [JSON.parse] of a text that is one string literal. *)
Definition unquote (s : string) : option string :=
  match s with
  | String c r =>
      if (nat_of_ascii c =? 34)%nat then
        match read_literal r with
        | Some (t, EmptyString) => Some t
        | _ => None
        end
      else None
  | EmptyString => None
  end.

(** [a === b] for two values that are strings or [undefined]. *)
Definition same (a b : option string) : bool :=
  match a, b with
  | Some x, Some y => String.eqb x y
  | None, None => true
  | _, _ => false
  end.

End JS.

(** ** Data model (the interfaces of the source) *)

Module ErrorMessage.
Record t := { code : Z; message : string; status : option string }.
End ErrorMessage.

(** The state of an operation as a snapshot holds it.  The interface
    declares the three strings below, but the decoded body is only cast to
    the interface: at run time the field holds whatever string the service
    sent (the three below, or any other), or it is [undefined]. *)
Definition STATE : Type := option string.

Definition FAILED : STATE := Some "FAILED".
Definition RUNNING : STATE := Some "RUNNING".
Definition SUCCEEDED : STATE := Some "SUCCEEDED".

(** A state interpolated in a template literal. *)
Definition STATE_string (s : STATE) : string := JS.show s.

Module MetaData.
Record t := { type : string; name : string; state : STATE }.
End MetaData.

Module GoogleResponse.
Record t := {
  name : option string;
  metadata : option MetaData.t;
  error : option ErrorMessage.t;
  done : option string
}.

(** The decoded object as [JSON.stringify] prints it: the fields that are
    present, in the order of the interface. *)
Definition toJSON (m : t) : JS.json :=
  JS.JObj
    (JS.prop "name" (JS.JStr <$> name m) ++
     JS.prop "metadata"
       ((fun d => JS.JObj
                    ([("@type", JS.JStr (MetaData.type d));
                      ("name", JS.JStr (MetaData.name d))] ++
                     JS.prop "state" (JS.JStr <$> MetaData.state d)))
        <$> metadata m) ++
     JS.prop "error"
       ((fun e => JS.JObj
                    ([("code", JS.JNum (ErrorMessage.code e));
                      ("message", JS.JStr (ErrorMessage.message e))] ++
                     JS.prop "status" (JS.JStr <$> ErrorMessage.status e)))
        <$> error m) ++
     JS.prop "done" (JS.JStr <$> done m)).
End GoogleResponse.

Module RequiredInputs.
Record t := {
  accessToken : string;
  bucketName : string;
  glossaryName : string;
  glossaryFileName : string;
  projectId : string
}.
End RequiredInputs.

(** A [fetch] request: method, URL, headers and body. *)
Module Request.
Record t := {
  method : string;
  url : string;
  headers : list (string * string);
  body : option string
}.
End Request.

(** A [fetch] response: the status, the body as [resp.text()] returns it and
    as [resp.json()] decodes it ([None] when the body is not JSON, in which
    case [resp.json()] rejects). *)
Module Response.
Record t := {
  status : Z;
  text : string;
  json : option GoogleResponse.t
}.
End Response.

(** Thrown values: [Error(msg)], the [TypeError] of a property read on
    [undefined], and the rejection of [resp.json()]. *)
Inductive exn :=
| Error (msg : string)
| TypeError (msg : string)
| FetchError (msg : string).

Definition exn_message (e : exn) : string :=
  match e with
  | Error m | TypeError m | FetchError m => m
  end.

(** ** Effects *)

Inductive event :=
| GetInput (name : string)
| Debug (line : string)
| Info (line : string)
| Warning (line : string)
| LogError (line : string)
| SetOutput (name : string) (value : option string)
| SetFailed (msg : string)
| Fetch (req : Request.t)
| Sleep (ms : Z).

(** What the program runs against: the inputs of the CI step (a missing input
    reads as the empty string) and the remote service, which answers a
    request with a response or makes [fetch] reject. *)
Record World := {
  inputs : gmap string string;
  remote : Request.t -> exn + Response.t
}.

Inductive result (A : Type) :=
| Ok (a : A)
| Throw (e : exn).
Arguments Ok {A} a.
Arguments Throw {A} e.

(** A computation: the events it emits, in order, and how it completes. *)
Definition M (A : Type) : Type := list event * result A.

Definition trace {A} (m : M A) : list event := m.1.
Definition outcome {A} (m : M A) : result A := m.2.

Definition ret {A} (a : A) : M A := ([], Ok a).
Definition throw {A} (e : exn) : M A := ([], Throw e).
Definition emit (ev : event) : M unit := ([ev], Ok tt).

(** [m], after the events [tr]. *)
Definition prefixed {A} (tr : list event) (m : M A) : M A :=
  (tr ++ m.1, m.2).

Definition bind {A B} (m : M A) (k : A -> M B) : M B :=
  match m.2 with
  | Ok a => prefixed m.1 (k a)
  | Throw e => (m.1, Throw e)
  end.

Notation "'let!' x := m 'in' k" := (bind m (fun x => k))
  (at level 10, x name, m at level 100, k at level 200).
Notation "'run' m 'in' k" := (bind m (fun _ => k))
  (at level 10, m at level 100, k at level 200).

(** [try { body } catch (error) { handle(error) }] *)
Definition tryCatch {A} (body : M A) (handle : exn -> M A) : M A :=
  match body.2 with
  | Ok a => (body.1, Ok a)
  | Throw e => prefixed body.1 (handle e)
  end.

(** A promise, observed once it has settled. *)
Inductive Promise (A : Type) :=
| Fulfilled (a : A)
| Rejected (e : exn).
Arguments Fulfilled {A} a.
Arguments Rejected {A} e.

(** Calling an [async] function: the call itself completes normally with a
    promise, and what the body throws rejects that promise. *)
Definition async {A} (body : M A) : M (Promise A) :=
  (body.1, Ok match body.2 with
              | Ok a => Fulfilled a
              | Throw e => Rejected e
              end).

(** [await p].  Inside an [async] function, [await f(...)] on an [async]
    callee is therefore [bind] on the callee's body ([await_async] below). *)
Definition await {A} (p : Promise A) : M A :=
  match p with
  | Fulfilled a => ret a
  | Rejected e => throw e
  end.

(** ** The CI runtime ([@actions/core]) and the transport ([node-fetch]) *)

Module core.
(** [core.getInput(name, options)]: the raw value, or the empty string;
    a required input that is empty throws; the value is trimmed (the
    source's options do not switch trimming off). *)
Definition getInput (w : World) (name : string) (required : bool) : M string :=
  run emit (GetInput name) in
  let val := default "" (inputs w !! name) in
  if required && String.eqb val ""
  then throw (Error ("Input required and not supplied: " +:+ name))
  else ret (JS.trim val).

Definition debug (line : string) : M unit := emit (Debug line).
Definition info (line : string) : M unit := emit (Info line).
Definition warning (line : string) : M unit := emit (Warning line).
Definition error (line : string) : M unit := emit (LogError line).
Definition setOutput (name : string) (value : option string) : M unit :=
  emit (SetOutput name value).
Definition setFailed (msg : string) : M unit := emit (SetFailed msg).
End core.

(** The value [core.getInput] returns for an input, when it returns. *)
Definition inputValue (w : World) (name : string) : string :=
  JS.trim (default "" (inputs w !! name)).

Definition requiredInputOption : bool := true.
Definition notRequiredInputOption : bool := false.

(** [await fetch(url, init)] *)
Definition fetch (w : World) (req : Request.t) : M Response.t :=
  run emit (Fetch req) in
  match remote w req with
  | inr resp => ret resp
  | inl e => throw e
  end.

(** [await resp.json()]; the rejection carries the text [node-fetch] gives it,
    up to the parser's reason, which is left out. *)
Definition json_of (req : Request.t) (resp : Response.t) : M GoogleResponse.t :=
  match Response.json resp with
  | Some m => ret m
  | None => throw (FetchError ("invalid json response body at " +:+ Request.url req))
  end.

(** [await setTimeout(ms)] *)
Definition setTimeout (ms : Z) : M unit := emit (Sleep ms).

(** ** The three remote operations *)

Definition apiBase : string := "https://translation.googleapis.com/v3/".

Definition bearer (accessToken : string) : string * string :=
  ("Authorization", "Bearer " +:+ accessToken).

Definition createRequest (input projectId accessToken : string) : Request.t :=
  {| Request.method := "POST";
     Request.url := apiBase +:+ "projects/" +:+ projectId +:+
                    "/locations/us-central1/glossaries";
     Request.headers := [bearer accessToken;
                         ("Content-Type", "application/json; charset=utf-8")];
     Request.body := Some input |}.

Definition deleteRequest (projectId glossaryName accessToken : string) : Request.t :=
  {| Request.method := "DELETE";
     Request.url := apiBase +:+ "projects/" +:+ projectId +:+
                    "/locations/us-central1/glossaries/" +:+ glossaryName;
     Request.headers := [bearer accessToken];
     Request.body := None |}.

Definition headRequest (name accessToken : string) : Request.t :=
  {| Request.method := "GET";
     Request.url := apiBase +:+ name;
     Request.headers := [bearer accessToken];
     Request.body := None |}.

Definition createGlossary (w : World) (input projectId accessToken : string)
  : M (option string) :=
  let req := createRequest input projectId accessToken in
  let! resp := fetch w req in
  if Response.status resp >=? 300 then
    let message := Response.text resp in
    run core.debug ("error message:" +:+ message) in
    run core.error ("delete glossary request failed with status:" +:+
                    pretty (Response.status resp) +:+ " message:" +:+ message) in
    throw (Error "delete request failed")
  else
    let! message := json_of req resp in
    ret (GoogleResponse.name message).

Definition deleteGlossary (w : World) (projectId glossaryName accessToken : string)
  : M unit :=
  let req := deleteRequest projectId glossaryName accessToken in
  let! resp := fetch w req in
  if Response.status resp =? 404 then
    run core.debug ("response message: " +:+ Response.text resp) in
    run core.warning ("glossary " +:+ glossaryName +:+
                      " is not found,continue to create") in
    ret tt
  else if Response.status resp >=? 300 then
    let message := Response.text resp in
    run core.debug ("error message:" +:+ message) in
    run core.error ("delete glossary request failed with status:" +:+
                    pretty (Response.status resp) +:+ " message:" +:+
                    JS.quote message) in
    throw (Error "delete request failed")
  else
    run core.debug ("response message :" +:+ Response.text resp) in
    ret tt.

Definition headOperation (w : World) (name accessToken : string)
  : M GoogleResponse.t :=
  let req := headRequest name accessToken in
  let! resp := fetch w req in
  if Response.status resp >=? 300 then
    let! message := json_of req resp in
    run core.debug "error message:[object Object]" in
    run core.error ("delete glossary request failed with status:" +:+
                    pretty (Response.status resp) +:+ " message:" +:+
                    JS.stringify (GoogleResponse.toJSON message)) in
    throw (Error "delete request failed")
  else
    let! message := json_of req resp in
    ret message.

(** ** The coordinator *)

Definition getRequiredInputs (w : World) : M RequiredInputs.t :=
  let! accessToken := core.getInput w "access-token" notRequiredInputOption in
  let! bucketName := core.getInput w "bucket-name" requiredInputOption in
  let! glossaryName := core.getInput w "glossary-name" requiredInputOption in
  let! glossaryFileName :=
    core.getInput w "glossary-file-name" requiredInputOption in
  let! projectId := core.getInput w "project-id" requiredInputOption in
  ret {| RequiredInputs.bucketName := bucketName;
         RequiredInputs.glossaryFileName := glossaryFileName;
         RequiredInputs.glossaryName := glossaryName;
         RequiredInputs.projectId := projectId;
         RequiredInputs.accessToken := accessToken |}.

Inductive CreateType := onePair | codesSet.

Definition inputConfig (glossaryFilePath : string) : JS.json :=
  JS.JObj [("gcsSource", JS.JObj [("inputUri", JS.JStr glossaryFilePath)])].

(** The object the [onePair] case serialises. *)
Definition onePairRequest (glossaryFullName glossaryFilePath : string)
    (inputsRaw : list string) : JS.json :=
  JS.JObj
    [("name", JS.JStr glossaryFullName);
     ("languagePair",
      JS.JObj (JS.prop "sourceLanguageCode" (JS.JStr <$> inputsRaw !! 0%nat) ++
               JS.prop "targetLanguageCode" (JS.JStr <$> inputsRaw !! 1%nat)));
     ("inputConfig", inputConfig glossaryFilePath)].

(** The object the [codesSet] case serialises. *)
Definition codesSetRequest (glossaryFullName glossaryFilePath : string)
    (codes : list string) : JS.json :=
  JS.JObj
    [("name", JS.JStr glossaryFullName);
     ("languageCodesSet", JS.JObj [("languageCodes", JS.JArr (JS.JStr <$> codes))]);
     ("inputConfig", inputConfig glossaryFilePath)].

(** [inputsRaw.length > 1 ? "onePair" : "codesSet"] *)
Definition typeOf (inputsRaw : list string) : CreateType :=
  if (1 <? List.length inputsRaw)%nat then onePair else codesSet.

(** The [switch (type)] of [handler]: the serialised request body. *)
Definition buildInput (type : CreateType)
    (glossaryFullName glossaryFilePath : string) (inputsRaw : list string)
  : M string :=
  match type with
  | onePair =>
      ret (JS.stringify (onePairRequest glossaryFullName glossaryFilePath inputsRaw))
  | codesSet =>
      match inputsRaw !! 0%nat with
      | Some first =>
          let codes := JS.split "," first in
          ret (JS.stringify (codesSetRequest glossaryFullName glossaryFilePath codes))
      | None =>
          throw (TypeError "Cannot read properties of undefined (reading 'split')")
      end
  end.

(** The wait time from the raw [wait-time] input. *)
Definition resolveWaitTime (raw : string) : Z :=
  let waitTimeRaw := JS.parseInt raw in
  let waitTime := match waitTimeRaw with None => 0 | Some n => n end in
  if waitTime >? 300 then 300 else waitTime.

Definition glossaryFullName (projectId glossaryName : string) : string :=
  "projects/" +:+ projectId +:+ "/locations/us-central1/glossaries/" +:+
  glossaryName.

Definition glossaryFilePath (bucketName glossaryFileName : string) : string :=
  "gs://" +:+ bucketName +:+ "/" +:+ glossaryFileName.

Definition handler (w : World) (inputsRaw : list string) : M GoogleResponse.t :=
  if (2 <? List.length inputsRaw)%nat then
    throw (Error "input can not be more than 2 string object")
  else
  let type := typeOf inputsRaw in
  let! ri := getRequiredInputs w in
  let bucketName := RequiredInputs.bucketName ri in
  let glossaryFileName := RequiredInputs.glossaryFileName ri in
  let projectId := RequiredInputs.projectId ri in
  let glossaryName := RequiredInputs.glossaryName ri in
  let accessToken := RequiredInputs.accessToken ri in
  run core.info ("try delete existed resource: " +:+ projectId +:+ "/" +:+
                 glossaryName) in
  run deleteGlossary w projectId glossaryName accessToken in
  let glossaryFullName := glossaryFullName projectId glossaryName in
  let glossaryFilePath := glossaryFilePath bucketName glossaryFileName in
  let! input := buildInput type glossaryFullName glossaryFilePath inputsRaw in
  run core.info ("try create glossary resource: " +:+ projectId +:+ "/" +:+
                 glossaryName) in
  let! name := createGlossary w input projectId accessToken in
  match name with
  | None | Some EmptyString =>
      run core.error "failed to parse google response of name field" in
      throw (Error "failed to parse google response of name field")
  | Some name =>
      let! waitTimeInput := core.getInput w "wait-time" notRequiredInputOption in
      let waitTime := resolveWaitTime waitTimeInput in
      run (if waitTime =? 0 then ret tt
           else run core.info ("wait for " +:+ pretty waitTime +:+ " secs...") in
                setTimeout (waitTime * 1000)) in
      run core.info ("try head operation: " +:+ name) in
      let! message := headOperation w name accessToken in
      match GoogleResponse.metadata message with
      | None =>
          run core.error "failed to parse google response of metaData field" in
          throw (Error "failed to parse google response of metaData field")
      | Some metadata =>
          if JS.same (MetaData.state metadata) FAILED then
            run core.error
              ("create operation has failed. message:" +:+
               JS.show (ErrorMessage.message <$> GoogleResponse.error message)) in
            throw (Error "create operation failed")
          else ret message
      end
  end.

(** ** Top-level dispatch *)

(** [message.metadata?.state] *)
Definition stateOf (message : GoogleResponse.t) : option STATE :=
  MetaData.state <$> GoogleResponse.metadata message.

(** [s === "RUNNING"], for [s] the value of [message.metadata?.state]. *)
Definition isRunning (s : option STATE) : bool :=
  match s with
  | Some state => JS.same state RUNNING
  | None => false
  end.

Definition main (w : World) : M unit :=
  let! targetLanguage := core.getInput w "target-language" notRequiredInputOption in
  let! sourceLanguage := core.getInput w "source-language" notRequiredInputOption in
  let! languageCodesSet :=
    core.getInput w "language-codes-set" notRequiredInputOption in
  if negb (String.length targetLanguage =? 0)%nat &&
     negb (String.length sourceLanguage =? 0)%nat then
    run core.info ("detected sourceLanguage: " +:+ sourceLanguage +:+
                   ", targetLanguage " +:+ targetLanguage) in
    run core.info "create one pair glossary resource" in
    let! message := handler w [targetLanguage; sourceLanguage] in
    run (if isRunning (stateOf message)
         then core.setOutput "operation-name" (GoogleResponse.name message)
         else ret tt) in
    run core.info ("update is " +:+ JS.show (STATE_string <$> stateOf message)) in
    ret tt
  else if negb (String.length languageCodesSet =? 0)%nat then
    run core.info ("detected language codes set: " +:+ languageCodesSet) in
    run core.info "create multi-language glossary resource" in
    let! message := handler w [languageCodesSet] in
    run (if isRunning (stateOf message)
         then core.setOutput "operation-name" (GoogleResponse.name message)
         else ret tt) in
    run core.info ("update is " +:+ JS.show (STATE_string <$> stateOf message)) in
    ret tt
  else
    throw (Error "Not appropriate language code input setting").

(** The module body: [try { main(); } catch (error) { core.setFailed(error.message); }].
    [main] is an [async] function and its promise is not awaited.  Nothing
    else runs in the module, so the events of the program are those of
    [main], in the same order. *)
Definition program (w : World) : M unit :=
  tryCatch
    (let! _ := async (main w) in ret tt)
    (fun error => core.setFailed (exn_message error)).

(** ** The phases of the coordinator, named for the proofs *)

(** The end of [handler]: the checks on the snapshot the inspect call
    returned. *)
Definition handler_check (message : GoogleResponse.t) : M GoogleResponse.t :=
  match GoogleResponse.metadata message with
  | None =>
      run core.error "failed to parse google response of metaData field" in
      throw (Error "failed to parse google response of metaData field")
  | Some metadata =>
      if JS.same (MetaData.state metadata) FAILED then
        run core.error
          ("create operation has failed. message:" +:+
           JS.show (ErrorMessage.message <$> GoogleResponse.error message)) in
        throw (Error "create operation failed")
      else ret message
  end.

(** The names of the inputs [getRequiredInputs] reads, in order. *)
Definition requiredNames : list string :=
  ["access-token"; "bucket-name"; "glossary-name"; "glossary-file-name";
   "project-id"].

(** The rest of [handler] once the create call has returned a name: the wait,
    the inspect call and the checks on the snapshot. *)
Definition handler_inspect (w : World) (accessToken name : string)
  : M GoogleResponse.t :=
  let! waitTimeInput := core.getInput w "wait-time" notRequiredInputOption in
  let waitTime := resolveWaitTime waitTimeInput in
  run (if waitTime =? 0 then ret tt
       else run core.info ("wait for " +:+ pretty waitTime +:+ " secs...") in
            setTimeout (waitTime * 1000)) in
  run core.info ("try head operation: " +:+ name) in
  let! message := headOperation w name accessToken in
  handler_check message.

(** The rest of [handler] once the request body is built: the create call and
    the check of its name, then [handler_inspect]. *)
Definition handler_create (w : World) (ri : RequiredInputs.t) (input : string)
  : M GoogleResponse.t :=
  run core.info ("try create glossary resource: " +:+
                 RequiredInputs.projectId ri +:+ "/" +:+
                 RequiredInputs.glossaryName ri) in
  let! name := createGlossary w input (RequiredInputs.projectId ri)
                 (RequiredInputs.accessToken ri) in
  match name with
  | None | Some EmptyString =>
      run core.error "failed to parse google response of name field" in
      throw (Error "failed to parse google response of name field")
  | Some name => handler_inspect w (RequiredInputs.accessToken ri) name
  end.

(** What [main] does with the snapshot [handler] returned. *)
Definition main_report (message : GoogleResponse.t) : M unit :=
  run (if isRunning (stateOf message)
       then core.setOutput "operation-name" (GoogleResponse.name message)
       else ret tt) in
  run core.info ("update is " +:+ JS.show (STATE_string <$> stateOf message)) in
  ret tt.

(** What [main] emits before it calls [handler] with [inputsRaw]. *)
Definition announce (inputsRaw : list string) : list event :=
  [GetInput "target-language"; GetInput "source-language";
   GetInput "language-codes-set"] ++
  match inputsRaw with
  | [targetLanguage; sourceLanguage] =>
      [Info ("detected sourceLanguage: " +:+ sourceLanguage +:+
             ", targetLanguage " +:+ targetLanguage);
       Info "create one pair glossary resource"]
  | _ =>
      [Info ("detected language codes set: " +:+ hd "" inputsRaw);
       Info "create multi-language glossary resource"]
  end.

(** ** Observations on a trace *)

Inductive step :=
| Call (req : Request.t)
| Pause (ms : Z).

(** The network calls and pauses of a trace, in order. *)
Fixpoint steps (tr : list event) : list step :=
  match tr with
  | [] => []
  | Fetch req :: rest => Call req :: steps rest
  | Sleep ms :: rest => Pause ms :: steps rest
  | _ :: rest => steps rest
  end.

(** The inputs read, in order. *)
Fixpoint reads (tr : list event) : list string :=
  match tr with
  | [] => []
  | GetInput name :: rest => name :: reads rest
  | _ :: rest => reads rest
  end.

(** The output values set. *)
Fixpoint outputs (tr : list event) : list (string * option string) :=
  match tr with
  | [] => []
  | SetOutput name value :: rest => (name, value) :: outputs rest
  | _ :: rest => outputs rest
  end.

(** The messages of the terminal failure signal. *)
Fixpoint failures (tr : list event) : list string :=
  match tr with
  | [] => []
  | SetFailed msg :: rest => msg :: failures rest
  | _ :: rest => failures rest
  end.

(** The lines logged at error level. *)
Fixpoint errors (tr : list event) : list string :=
  match tr with
  | [] => []
  | LogError line :: rest => line :: errors rest
  | _ :: rest => errors rest
  end.

(** The lines logged at warning level. *)
Fixpoint warnings (tr : list event) : list string :=
  match tr with
  | [] => []
  | Warning line :: rest => line :: warnings rest
  | _ :: rest => warnings rest
  end.

(** ** Paths through the coordinator

    The conditions under which [handler] gets as far as the create call, and
    as far as the inspect call, stated on the world. *)

Section Paths.
Context (w : World) (inputsRaw : list string) (ri : RequiredInputs.t).

Definition deleteReq : Request.t :=
  deleteRequest (RequiredInputs.projectId ri) (RequiredInputs.glossaryName ri)
    (RequiredInputs.accessToken ri).

Definition createReq (input : string) : Request.t :=
  createRequest input (RequiredInputs.projectId ri)
    (RequiredInputs.accessToken ri).

Definition headReq (name : string) : Request.t :=
  headRequest name (RequiredInputs.accessToken ri).

(** The request body [handler] builds from these inputs. *)
Definition inputOf : M string :=
  buildInput (typeOf inputsRaw)
    (glossaryFullName (RequiredInputs.projectId ri)
       (RequiredInputs.glossaryName ri))
    (glossaryFilePath (RequiredInputs.bucketName ri)
       (RequiredInputs.glossaryFileName ri))
    inputsRaw.

(** The mandatory inputs are there and at most two language inputs are
    given: [handler] issues the delete call. *)
Definition reaches_delete : Prop :=
  (List.length inputsRaw <= 2)%nat /\
  outcome (getRequiredInputs w) = Ok ri.

(** The delete call is answered with 404 or with a status below 300. *)
Definition delete_passes : Prop :=
  exists rd, remote w deleteReq = inr rd /\
             (Response.status rd = 404 \/ Response.status rd < 300).

(** [handler] issues the create call, with body [input]. *)
Definition reaches_create (input : string) : Prop :=
  reaches_delete /\ delete_passes /\ outcome inputOf = Ok input.

(** The create call is answered with a status below 300 and a decoded body
    whose [name] is [name]. *)
Definition create_returns (input : string) (name : option string) : Prop :=
  exists rc m, remote w (createReq input) = inr rc /\
               Response.status rc < 300 /\
               Response.json rc = Some m /\
               GoogleResponse.name m = name.

(** [handler] issues the inspect call, for the operation [name]. *)
Definition reaches_inspect (input name : string) : Prop :=
  reaches_create input /\ create_returns input (Some name) /\
  name <> EmptyString.

(** The inspect call is answered with a status below 300 and the decoded
    snapshot [message]. *)
Definition inspect_returns (name : string) (message : GoogleResponse.t) : Prop :=
  exists rh, remote w (headReq name) = inr rh /\
             Response.status rh < 300 /\
             Response.json rh = Some message.
End Paths.

(** The wait time a run resolves from its [wait-time] input. *)
Definition waitTimeOf (w : World) : Z :=
  resolveWaitTime (inputValue w "wait-time").

(** [request.inputConfig.gcsSource.inputUri] *)
Definition inputUri (request : JS.json) : option JS.json :=
  match JS.get "inputConfig" request with
  | Some config =>
      match JS.get "gcsSource" config with
      | Some source => JS.get "inputUri" source
      | None => None
      end
  | None => None
  end.

(** The language inputs [main] hands to [handler], when it calls it. *)
Definition dispatch (w : World) : option (list string) :=
  let targetLanguage := inputValue w "target-language" in
  let sourceLanguage := inputValue w "source-language" in
  let languageCodesSet := inputValue w "language-codes-set" in
  if negb (String.length targetLanguage =? 0)%nat &&
     negb (String.length sourceLanguage =? 0)%nat
  then Some [targetLanguage; sourceLanguage]
  else if negb (String.length languageCodesSet =? 0)%nat
       then Some [languageCodesSet]
       else None.

(** A computation all of whose events satisfy [P]. *)
Definition only (P : event -> bool) {A} (m : M A) : Prop :=
  forallb P (trace m) = true.

(** The events of the coordinator and of the three operations: everything
    but outputs and the failure signal. *)
Definition internal (ev : event) : bool :=
  match ev with
  | SetOutput _ _ | SetFailed _ => false
  | _ => true
  end.

(** Every event but the failure signal. *)
Definition unsignalled (ev : event) : bool :=
  match ev with
  | SetFailed _ => false
  | _ => true
  end.

(** The bodies of the create calls of a trace. *)
Fixpoint createBodies (tr : list event) : list string :=
  match tr with
  | [] => []
  | Fetch req :: rest =>
      (if String.eqb (Request.method req) "POST"
       then match Request.body req with Some b => [b] | None => [] end
       else []) ++ createBodies rest
  | _ :: rest => createBodies rest
  end.

(** The requests of a trace, in order, and the durations of its pauses. *)
Fixpoint calls (tr : list event) : list Request.t :=
  match tr with
  | [] => []
  | Fetch req :: rest => req :: calls rest
  | _ :: rest => calls rest
  end.

Fixpoint pauses (tr : list event) : list Z :=
  match tr with
  | [] => []
  | Sleep ms :: rest => ms :: pauses rest
  | _ :: rest => pauses rest
  end.

(** The lines logged at information level. *)
Fixpoint infos (tr : list event) : list string :=
  match tr with
  | [] => []
  | Info line :: rest => line :: infos rest
  | _ :: rest => infos rest
  end.

(** The requests among the steps of a run. *)
Fixpoint requests (l : list step) : list Request.t :=
  match l with
  | [] => []
  | Call req :: rest => req :: requests rest
  | Pause _ :: rest => requests rest
  end.

(** The pauses among the steps of a run. *)
Fixpoint waits (l : list step) : list Z :=
  match l with
  | [] => []
  | Call _ :: rest => waits rest
  | Pause ms :: rest => ms :: waits rest
  end.

(** The steps of a complete run: delete, create, the pause when the wait
    time is not 0, inspect. *)
Definition fullRun (w : World) (ri : RequiredInputs.t) (input name : string)
  : list step :=
  [Call (deleteReq ri); Call (createReq ri input)] ++
  (if waitTimeOf w =? 0 then [] else [Pause (waitTimeOf w * 1000)]) ++
  [Call (headReq ri name)].

(** The world [w] with the input [name] not supplied. *)
Definition withoutInput (name : string) (w : World) : World :=
  {| inputs := delete name (inputs w); remote := remote w |}.

(** The inputs [getRequiredInputs] reads as required, in order. *)
Definition mandatoryNames : list string :=
  ["bucket-name"; "glossary-name"; "glossary-file-name"; "project-id"].

(** The first mandatory input that is not supplied, when there is one. *)
Definition firstMissing (w : World) : option string :=
  List.find (fun name => String.eqb (default "" (inputs w !! name)) "")
    mandatoryNames.

(** The mandatory inputs, as read from the world. *)
Definition requiredOf (w : World) : RequiredInputs.t :=
  {| RequiredInputs.accessToken := inputValue w "access-token";
     RequiredInputs.bucketName := inputValue w "bucket-name";
     RequiredInputs.glossaryName := inputValue w "glossary-name";
     RequiredInputs.glossaryFileName := inputValue w "glossary-file-name";
     RequiredInputs.projectId := inputValue w "project-id" |}.

(** The names up to and including the first one [stop] holds of. *)
Fixpoint upTo (stop : string -> bool) (names : list string) : list string :=
  match names with
  | [] => []
  | name :: rest => name :: (if stop name then [] else upTo stop rest)
  end.

(** The number of occurrences of a character in a string. *)
Fixpoint occurrences (c : ascii) (s : string) : nat :=
  match s with
  | EmptyString => 0
  | String c' r => ((if Ascii.eqb c' c then 1 else 0) + occurrences c r)%nat
  end.

(** ** Concrete worlds, to run the model on *)

Module Sample.

(** A remote service that answers by request method. *)
Definition service (del create head : exn + Response.t)
  : Request.t -> exn + Response.t :=
  fun req =>
    if String.eqb (Request.method req) "DELETE" then del
    else if String.eqb (Request.method req) "POST" then create
    else head.

Definition answer (status : Z) (text : string) (json : option GoogleResponse.t)
  : exn + Response.t :=
  inr {| Response.status := status; Response.text := text;
         Response.json := json |}.

Definition operation (name : option string) (state : option STATE)
    (error : option ErrorMessage.t) : GoogleResponse.t :=
  {| GoogleResponse.name := name;
     GoogleResponse.metadata :=
       (fun s => {| MetaData.type := "CreateGlossaryMetadata";
                    MetaData.name := "projects/p/locations/us-central1/glossaries/g";
                    MetaData.state := s |}) <$> state;
     GoogleResponse.error := error;
     GoogleResponse.done := None |}.

Definition required : list (string * string) :=
  [("access-token", "tok"); ("bucket-name", "b"); ("glossary-name", "g");
   ("glossary-file-name", "f.csv"); ("project-id", "p")].

Definition created : exn + Response.t :=
  answer 200 "" (Some (operation (Some "operations/op1") None None)).

Definition observed (state : STATE) : exn + Response.t :=
  answer 200 "" (Some (operation (Some "operations/op1") (Some state) None)).

Definition world (extra : list (string * string))
    (del create head : exn + Response.t) : World :=
  {| inputs := list_to_map (extra ++ required);
     remote := service del create head |}.

Definition pairInputs : list (string * string) :=
  [("target-language", "en"); ("source-language", "fr")].

Definition setInputs : list (string * string) :=
  [("language-codes-set", "en,fr,de")].

(** The service when nothing goes wrong: the glossary did not exist, the
    create call returns an operation, which is observed in [state]. *)
Definition absent : exn + Response.t := answer 404 "not found" None.

Definition pairWorld (state : STATE) : World :=
  world pairInputs absent created (observed state).

Definition setWorld (state : STATE) : World :=
  world setInputs absent created (observed state).

(** The same, with a [wait-time] input. *)
Definition waitingWorld (waitTime : string) : World :=
  world (("wait-time", waitTime) :: setInputs) absent created
    (observed RUNNING).

(** No language input at all. *)
Definition noLanguage : World := world [] absent created (observed RUNNING).

(** The delete call is refused. *)
Definition deleteRefused : World :=
  world pairInputs (answer 403 "forbidden" None) created (observed RUNNING).

(** The create call is refused. *)
Definition createRefused : World :=
  world pairInputs absent (answer 500 "boom" None) (observed RUNNING).

Definition unavailable : GoogleResponse.t :=
  operation None None
    (Some {| ErrorMessage.code := 503;
             ErrorMessage.message := "unavailable";
             ErrorMessage.status := Some "UNAVAILABLE" |}).

(** The inspect call is refused. *)
Definition inspectRefused : World :=
  world pairInputs absent created (answer 503 "" (Some unavailable)).

(** The create call succeeds with a body that has no [name]. *)
Definition unnamed : World :=
  world pairInputs absent (answer 200 "{}" (Some (operation None None None)))
    (observed RUNNING).

(** The operation is observed as failed, with a remote error. *)
Definition failedWorld : World :=
  world pairInputs absent created
    (answer 200 ""
       (Some (operation (Some "operations/op1") (Some FAILED)
                (Some {| ErrorMessage.code := 3;
                         ErrorMessage.message := "bad glossary file";
                         ErrorMessage.status := None |})))).

(** The snapshot has no metadata. *)
Definition bareWorld : World :=
  world pairInputs absent created
    (answer 200 "" (Some (operation (Some "operations/op1") None None))).

(** The mandatory inputs as [getRequiredInputs] returns them here. *)
Definition ri : RequiredInputs.t :=
  {| RequiredInputs.accessToken := "tok";
     RequiredInputs.bucketName := "b";
     RequiredInputs.glossaryName := "g";
     RequiredInputs.glossaryFileName := "f.csv";
     RequiredInputs.projectId := "p" |}.

(** The network is down: [fetch] rejects on the delete call. *)
Definition offline : World :=
  world pairInputs (inl (FetchError "connect ECONNREFUSED")) created
    (observed RUNNING).

(** The create call succeeds with a body that is not JSON. *)
Definition garbled : World :=
  world pairInputs absent (answer 200 "<html>" None) (observed RUNNING).

(** The inspect call is refused with a body that is not JSON. *)
Definition inspectGarbled : World :=
  world pairInputs absent created (answer 502 "<html>" None).

(** The create call returns an empty name. *)
Definition emptyName : World :=
  world pairInputs absent
    (answer 200 "" (Some (operation (Some "") None None))) (observed RUNNING).

Definition fullName : string := "projects/p/locations/us-central1/glossaries/g".
Definition filePath : string := "gs://b/f.csv".

End Sample.

(** * Properties *)

(** ** The computation monad *)

Lemma bind_Ok {A B} (tr : list event) (a : A) (k : A -> M B) :
  bind (tr, Ok a) k = prefixed tr (k a).
Proof. reflexivity. Qed.

Lemma prefixed_nil {A} (m : M A) : prefixed [] m = m.
Proof. by destruct m. Qed.

Lemma prefixed_prefixed {A} (t1 t2 : list event) (m : M A) :
  prefixed t1 (prefixed t2 m) = prefixed (t1 ++ t2) m.
Proof. unfold prefixed. cbn. by rewrite app_assoc. Qed.

Lemma prefixed_pair {A} (t1 t2 : list event) (r : result A) :
  prefixed t1 (t2, r) = (t1 ++ t2, r).
Proof. reflexivity. Qed.

Lemma outcome_prefixed {A} (tr : list event) (m : M A) :
  outcome (prefixed tr m) = outcome m.
Proof. reflexivity. Qed.

Lemma trace_prefixed {A} (tr : list event) (m : M A) :
  trace (prefixed tr m) = tr ++ trace m.
Proof. reflexivity. Qed.

Lemma bind_Throw {A B} (tr : list event) (e : exn) (k : A -> M B) :
  bind (tr, Throw e) k = (tr, Throw e).
Proof. reflexivity. Qed.

Lemma await_async {A} (m : M A) :
  (let! p := async m in await p) = m.
Proof.
  destruct m as [tr [a | e]]; unfold async, bind, await, prefixed; cbn;
    by rewrite ?app_nil_r.
Qed.

Lemma steps_app (t1 t2 : list event) : steps (t1 ++ t2) = steps t1 ++ steps t2.
Proof.
  induction t1 as [| ev t1 IH]; [done |].
  destruct ev; cbn; by rewrite ?IH.
Qed.

Lemma reads_app (t1 t2 : list event) : reads (t1 ++ t2) = reads t1 ++ reads t2.
Proof.
  induction t1 as [| ev t1 IH]; [done |].
  destruct ev; cbn; by rewrite ?IH.
Qed.

Lemma outputs_app (t1 t2 : list event) :
  outputs (t1 ++ t2) = outputs t1 ++ outputs t2.
Proof.
  induction t1 as [| ev t1 IH]; [done |].
  destruct ev; cbn; by rewrite ?IH.
Qed.

Lemma failures_app (t1 t2 : list event) :
  failures (t1 ++ t2) = failures t1 ++ failures t2.
Proof.
  induction t1 as [| ev t1 IH]; [done |].
  destruct ev; cbn; by rewrite ?IH.
Qed.

Lemma errors_app (t1 t2 : list event) :
  errors (t1 ++ t2) = errors t1 ++ errors t2.
Proof.
  induction t1 as [| ev t1 IH]; [done |].
  destruct ev; cbn; by rewrite ?IH.
Qed.

(** ** The CI inputs *)

Lemma getInput_optional (w : World) (name : string) :
  core.getInput w name notRequiredInputOption =
  ([GetInput name], Ok (inputValue w name)).
Proof. reflexivity. Qed.

Lemma getInput_required (w : World) (name : string) :
  core.getInput w name requiredInputOption =
  ([GetInput name],
   if String.eqb (default "" (inputs w !! name)) ""
   then Throw (Error ("Input required and not supplied: " +:+ name))
   else Ok (inputValue w name)).
Proof.
  unfold core.getInput, requiredInputOption, emit.
  rewrite bind_Ok. cbv beta zeta. rewrite andb_true_l.
  by destruct (String.eqb _ _).
Qed.

(** When all mandatory inputs are supplied, [getRequiredInputs] reads the
    five inputs in order and does nothing else. *)
Lemma getRequiredInputs_Ok (w : World) (ri : RequiredInputs.t) :
  outcome (getRequiredInputs w) = Ok ri ->
  getRequiredInputs w =
  ([GetInput "access-token"; GetInput "bucket-name"; GetInput "glossary-name";
    GetInput "glossary-file-name"; GetInput "project-id"], Ok ri).
Proof.
  unfold getRequiredInputs.
  rewrite getInput_optional, !getInput_required, bind_Ok. cbv beta.
  repeat (destruct (String.eqb _ _);
          [rewrite ?bind_Ok, ?bind_Throw; cbv beta; rewrite ?bind_Throw;
           discriminate |]; rewrite bind_Ok; cbv beta).
  unfold outcome, ret. cbn. intros [= <-]. reflexivity.
Qed.

(** ** The remote operations, by status *)

Ltac run_binds :=
  repeat (rewrite ?bind_Ok, ?bind_Throw, ?prefixed_pair, ?prefixed_prefixed;
          cbv beta zeta; cbn [fst snd app]).

Ltac status_test :=
  repeat match goal with
    | |- context [?a =? ?b] =>
        first [ replace (a =? b) with true by (symmetry; apply Z.eqb_eq; lia)
              | replace (a =? b) with false by (symmetry; apply Z.eqb_neq; lia) ]
    | |- context [?a >=? ?b] =>
        first [ replace (a >=? b) with true by (symmetry; apply Z.geb_le; lia)
              | replace (a >=? b) with false
                  by (symmetry; rewrite Z.geb_leb; apply Z.leb_gt; lia) ]
    end.

Section Operations.
Context (w : World).

Lemma fetch_answer (req : Request.t) (resp : Response.t) :
  remote w req = inr resp -> fetch w req = ([Fetch req], Ok resp).
Proof. intros H. unfold fetch, emit. rewrite bind_Ok, H. reflexivity. Qed.

Lemma fetch_reject (req : Request.t) (e : exn) :
  remote w req = inl e -> fetch w req = ([Fetch req], Throw e).
Proof. intros H. unfold fetch, emit. rewrite bind_Ok, H. reflexivity. Qed.

Lemma deleteGlossary_404 (projectId glossaryName accessToken : string)
    (rd : Response.t) :
  remote w (deleteRequest projectId glossaryName accessToken) = inr rd ->
  Response.status rd = 404 ->
  deleteGlossary w projectId glossaryName accessToken =
  ([Fetch (deleteRequest projectId glossaryName accessToken);
    Debug ("response message: " +:+ Response.text rd);
    Warning ("glossary " +:+ glossaryName +:+ " is not found,continue to create")],
   Ok tt).
Proof.
  intros Hr Hs. unfold deleteGlossary. cbv zeta.
  rewrite (fetch_answer _ _ Hr). run_binds. status_test. reflexivity.
Qed.

Lemma deleteGlossary_below_300 (projectId glossaryName accessToken : string)
    (rd : Response.t) :
  remote w (deleteRequest projectId glossaryName accessToken) = inr rd ->
  Response.status rd < 300 ->
  deleteGlossary w projectId glossaryName accessToken =
  ([Fetch (deleteRequest projectId glossaryName accessToken);
    Debug ("response message :" +:+ Response.text rd)],
   Ok tt).
Proof.
  intros Hr Hs. unfold deleteGlossary. cbv zeta.
  rewrite (fetch_answer _ _ Hr). run_binds. status_test. reflexivity.
Qed.

Lemma deleteGlossary_failure (projectId glossaryName accessToken : string)
    (rd : Response.t) :
  remote w (deleteRequest projectId glossaryName accessToken) = inr rd ->
  300 <= Response.status rd -> Response.status rd <> 404 ->
  deleteGlossary w projectId glossaryName accessToken =
  ([Fetch (deleteRequest projectId glossaryName accessToken);
    Debug ("error message:" +:+ Response.text rd);
    LogError ("delete glossary request failed with status:" +:+
              pretty (Response.status rd) +:+ " message:" +:+
              JS.quote (Response.text rd))],
   Throw (Error "delete request failed")).
Proof.
  intros Hr Hs Hn. unfold deleteGlossary. cbv zeta.
  rewrite (fetch_answer _ _ Hr). run_binds. status_test. reflexivity.
Qed.

Lemma createGlossary_returns (input projectId accessToken : string)
    (rc : Response.t) (m : GoogleResponse.t) :
  remote w (createRequest input projectId accessToken) = inr rc ->
  Response.status rc < 300 ->
  Response.json rc = Some m ->
  createGlossary w input projectId accessToken =
  ([Fetch (createRequest input projectId accessToken)],
   Ok (GoogleResponse.name m)).
Proof.
  intros Hr Hs Hj. unfold createGlossary, json_of. cbv zeta.
  rewrite (fetch_answer _ _ Hr). run_binds. status_test. rewrite Hj.
  reflexivity.
Qed.

Lemma createGlossary_failure (input projectId accessToken : string)
    (rc : Response.t) :
  remote w (createRequest input projectId accessToken) = inr rc ->
  300 <= Response.status rc ->
  createGlossary w input projectId accessToken =
  ([Fetch (createRequest input projectId accessToken);
    Debug ("error message:" +:+ Response.text rc);
    LogError ("delete glossary request failed with status:" +:+
              pretty (Response.status rc) +:+ " message:" +:+
              Response.text rc)],
   Throw (Error "delete request failed")).
Proof.
  intros Hr Hs. unfold createGlossary. cbv zeta.
  rewrite (fetch_answer _ _ Hr). run_binds. status_test. reflexivity.
Qed.

Lemma headOperation_returns (name accessToken : string)
    (rh : Response.t) (m : GoogleResponse.t) :
  remote w (headRequest name accessToken) = inr rh ->
  Response.status rh < 300 ->
  Response.json rh = Some m ->
  headOperation w name accessToken =
  ([Fetch (headRequest name accessToken)], Ok m).
Proof.
  intros Hr Hs Hj. unfold headOperation, json_of. cbv zeta.
  rewrite (fetch_answer _ _ Hr). run_binds. status_test. rewrite Hj.
  reflexivity.
Qed.

Lemma headOperation_failure (name accessToken : string)
    (rh : Response.t) (m : GoogleResponse.t) :
  remote w (headRequest name accessToken) = inr rh ->
  300 <= Response.status rh ->
  Response.json rh = Some m ->
  headOperation w name accessToken =
  ([Fetch (headRequest name accessToken);
    Debug "error message:[object Object]";
    LogError ("delete glossary request failed with status:" +:+
              pretty (Response.status rh) +:+ " message:" +:+
              JS.stringify (GoogleResponse.toJSON m))],
   Throw (Error "delete request failed")).
Proof.
  intros Hr Hs Hj. unfold headOperation, json_of. cbv zeta.
  rewrite (fetch_answer _ _ Hr). run_binds. status_test. rewrite Hj.
  reflexivity.
Qed.
End Operations.

(** ** The coordinator, phase by phase *)

Section Coordinator.
Context (w : World) (inputsRaw : list string) (ri : RequiredInputs.t).

Let projectId := RequiredInputs.projectId ri.
Let glossaryName := RequiredInputs.glossaryName ri.
Let accessToken := RequiredInputs.accessToken ri.

Lemma handler_too_many :
  (2 < List.length inputsRaw)%nat ->
  handler w inputsRaw =
  ([], Throw (Error "input can not be more than 2 string object")).
Proof.
  intros H. unfold handler.
  replace (2 <? List.length inputsRaw)%nat with true
    by (symmetry; apply Nat.ltb_lt; lia).
  reflexivity.
Qed.

(** Up to the delete call. *)
Lemma handler_delete_phase :
  reaches_delete w inputsRaw ri ->
  handler w inputsRaw =
  prefixed
    (map GetInput requiredNames ++
     [Info ("try delete existed resource: " +:+ projectId +:+ "/" +:+
            glossaryName)])
    (run deleteGlossary w projectId glossaryName accessToken in
     let! input := inputOf inputsRaw ri in
     handler_create w ri input).
Proof.
  intros [Hlen Hreq]. unfold handler.
  replace (2 <? List.length inputsRaw)%nat with false
    by (symmetry; apply Nat.ltb_ge; lia).
  rewrite (getRequiredInputs_Ok _ _ Hreq). rewrite bind_Ok. cbv beta zeta.
  unfold core.info at 1. unfold emit. rewrite bind_Ok, prefixed_prefixed.
  reflexivity.
Qed.

(** The delete call, when it passes. *)
Lemma deleteGlossary_passes :
  delete_passes w ri ->
  exists tr,
    deleteGlossary w projectId glossaryName accessToken = (tr, Ok tt) /\
    steps tr = [Call (deleteReq ri)] /\ reads tr = [] /\ errors tr = [].
Proof.
  intros (rd & Hrd & [Hst | Hst]).
  - eexists. split; [apply (deleteGlossary_404 _ _ _ _ _ Hrd Hst) | done].
  - eexists. split; [apply (deleteGlossary_below_300 _ _ _ _ _ Hrd Hst) | done].
Qed.

(** [buildInput] emits nothing. *)
Lemma inputOf_silent : trace (inputOf inputsRaw ri) = [].
Proof.
  unfold inputOf, buildInput.
  destruct (typeOf inputsRaw); [done |]. by destruct (inputsRaw !! 0%nat).
Qed.

(** Up to the create call. *)
Lemma handler_create_phase (input : string) :
  reaches_create w inputsRaw ri input ->
  exists pre,
    handler w inputsRaw = prefixed pre (handler_create w ri input) /\
    steps pre = [Call (deleteReq ri)] /\
    reads pre = requiredNames /\
    errors pre = [].
Proof.
  intros (Hd & Hp & Hin).
  destruct (deleteGlossary_passes Hp) as (tr & Hdel & Hsteps & Hreads & Herrs).
  exists (map GetInput requiredNames ++
          [Info ("try delete existed resource: " +:+ projectId +:+ "/" +:+
                 glossaryName)] ++ tr).
  split.
  - rewrite (handler_delete_phase Hd), Hdel, bind_Ok.
    pose proof inputOf_silent as Hsil.
    destruct (inputOf inputsRaw ri) as [tri [inp | e]]; cbn in Hin, Hsil;
      [| discriminate].
    injection Hin as ->. subst tri.
    rewrite bind_Ok, prefixed_nil, prefixed_prefixed.
    by rewrite <- app_assoc.
  - rewrite !steps_app, !reads_app, !errors_app, Hsteps, Hreads, Herrs.
    done.
Qed.

(** The create call returned no usable name. *)
Lemma handler_create_unnamed (input : string) (name : option string) :
  create_returns w ri input name ->
  JS.falsy name = true ->
  handler_create w ri input =
  ([Info ("try create glossary resource: " +:+ projectId +:+ "/" +:+
          glossaryName);
    Fetch (createReq ri input);
    LogError "failed to parse google response of name field"],
   Throw (Error "failed to parse google response of name field")).
Proof.
  intros (rc & m & Hrc & Hst & Hj & Hn) Hf. unfold handler_create.
  rewrite (createGlossary_returns _ _ _ _ _ _ Hrc Hst Hj), Hn.
  destruct name as [[| c name] |]; [| discriminate Hf |]; reflexivity.
Qed.

(** The create call returned the name of the operation. *)
Lemma handler_create_named (input name : string) :
  create_returns w ri input (Some name) ->
  name <> EmptyString ->
  handler_create w ri input =
  prefixed
    [Info ("try create glossary resource: " +:+ projectId +:+ "/" +:+
           glossaryName);
     Fetch (createReq ri input)]
    (handler_inspect w accessToken name).
Proof.
  intros (rc & m & Hrc & Hst & Hj & Hn) Hne. unfold handler_create.
  rewrite (createGlossary_returns _ _ _ _ _ _ Hrc Hst Hj), Hn.
  destruct name as [| c name]; [done |].
  unfold core.info, emit. rewrite !bind_Ok, prefixed_prefixed. reflexivity.
Qed.

(** The create call was refused. *)
Lemma handler_create_refused (input : string) (rc : Response.t) :
  remote w (createReq ri input) = inr rc ->
  300 <= Response.status rc ->
  handler_create w ri input =
  ([Info ("try create glossary resource: " +:+ projectId +:+ "/" +:+
          glossaryName);
    Fetch (createReq ri input);
    Debug ("error message:" +:+ Response.text rc);
    LogError ("delete glossary request failed with status:" +:+
              pretty (Response.status rc) +:+ " message:" +:+
              Response.text rc)],
   Throw (Error "delete request failed")).
Proof.
  intros Hrc Hst. unfold handler_create.
  rewrite (createGlossary_failure _ _ _ _ _ Hrc Hst). reflexivity.
Qed.

(** The wait, up to the inspect call. *)
Lemma handler_inspect_phase (name : string) :
  handler_inspect w accessToken name =
  prefixed
    ([GetInput "wait-time"] ++
     (if waitTimeOf w =? 0 then []
      else [Info ("wait for " +:+ pretty (waitTimeOf w) +:+ " secs...");
            Sleep (waitTimeOf w * 1000)]) ++
     [Info ("try head operation: " +:+ name)])
    (let! message := headOperation w name accessToken in
     handler_check message).
Proof.
  unfold handler_inspect. rewrite getInput_optional, bind_Ok. cbv beta zeta.
  change (resolveWaitTime (inputValue w "wait-time")) with (waitTimeOf w).
  destruct (waitTimeOf w =? 0); unfold core.info, setTimeout, emit, ret;
    run_binds; reflexivity.
Qed.

(** Up to the inspect call. *)
Lemma handler_inspect_reached (input name : string) :
  reaches_inspect w inputsRaw ri input name ->
  exists pre,
    handler w inputsRaw =
    prefixed pre
      (let! message := headOperation w name accessToken in
       handler_check message) /\
    steps pre =
      [Call (deleteReq ri); Call (createReq ri input)] ++
      (if waitTimeOf w =? 0 then [] else [Pause (waitTimeOf w * 1000)]) /\
    reads pre = requiredNames ++ ["wait-time"] /\
    errors pre = [].
Proof.
  intros (Hc & Hr & Hne).
  destruct (handler_create_phase _ Hc) as (pre & Hh & Hsteps & Hreads & Herrs).
  eexists. split.
  - rewrite Hh, (handler_create_named _ _ Hr Hne), handler_inspect_phase,
      !prefixed_prefixed. reflexivity.
  - rewrite !steps_app, !reads_app, !errors_app, Hsteps, Hreads, Herrs.
    destruct (waitTimeOf w =? 0); done.
Qed.
End Coordinator.

(** ** What the inspect call and the final checks emit *)

Lemma trace_bind {A B} (m : M A) (k : A -> M B) :
  trace (bind m k) =
  trace m ++ match outcome m with
             | Ok a => trace (k a)
             | Throw _ => []
             end.
Proof.
  destruct m as [tr [a | e]]; unfold bind, trace, outcome, prefixed; cbn;
    by rewrite ?app_nil_r.
Qed.

Lemma outcome_bind {A B} (m : M A) (k : A -> M B) :
  outcome (bind m k) =
  match outcome m with
  | Ok a => outcome (k a)
  | Throw e => Throw e
  end.
Proof. by destruct m as [tr [a | e]]. Qed.

Lemma outcome_bind_Ok {A B} (m : M A) (k : A -> M B) (b : B) :
  outcome (bind m k) = Ok b ->
  exists a, outcome m = Ok a /\ outcome (k a) = Ok b.
Proof. rewrite outcome_bind. destruct (outcome m); [eauto | discriminate]. Qed.

Section Inspect.
Context (w : World) (name accessToken : string).

(** The inspect operation makes its one call, whatever the answer. *)
Lemma headOperation_steps :
  steps (trace (headOperation w name accessToken)) =
  [Call (headRequest name accessToken)].
Proof.
  unfold headOperation, json_of. cbv zeta.
  destruct (remote w (headRequest name accessToken)) as [e | rh] eqn:Hr.
  - by rewrite (fetch_reject _ _ _ Hr).
  - rewrite (fetch_answer _ _ _ Hr), bind_Ok.
    destruct (Response.status rh >=? 300), (Response.json rh); reflexivity.
Qed.

Lemma handler_check_steps (message : GoogleResponse.t) :
  steps (trace (handler_check message)) = [].
Proof.
  unfold handler_check.
  destruct (GoogleResponse.metadata message) as [md |]; [| reflexivity].
  destruct (JS.same (MetaData.state md) FAILED); reflexivity.
Qed.

Lemma inspect_steps :
  steps (trace (let! message := headOperation w name accessToken in
                handler_check message)) =
  [Call (headRequest name accessToken)].
Proof.
  rewrite trace_bind, steps_app, headOperation_steps.
  destruct (outcome _); [| reflexivity].
  by rewrite handler_check_steps.
Qed.

(** The verdict on a snapshot the service returned. *)
Lemma inspect_verdict (rh : Response.t) (message : GoogleResponse.t) :
  remote w (headRequest name accessToken) = inr rh ->
  Response.status rh < 300 ->
  Response.json rh = Some message ->
  (let! message := headOperation w name accessToken in
   handler_check message) =
  prefixed [Fetch (headRequest name accessToken)] (handler_check message).
Proof.
  intros Hr Hs Hj.
  by rewrite (headOperation_returns _ _ _ _ _ Hr Hs Hj), bind_Ok.
Qed.
End Inspect.

(** ** The top-level dispatch *)

Section Main.
Context (w : World).

(** [main] hands the language inputs it selected to [handler] and reports
    on the snapshot that comes back. *)
Lemma main_dispatched (inputsRaw : list string) :
  dispatch w = Some inputsRaw ->
  main w =
  prefixed (announce inputsRaw)
    (let! message := handler w inputsRaw in main_report message).
Proof.
  unfold dispatch, main. rewrite !getInput_optional. run_binds.
  destruct (negb _ && negb _).
  - intros [= <-]. unfold core.info, emit. run_binds. reflexivity.
  - destruct (negb _); [| discriminate].
    intros [= <-]. unfold core.info, emit. run_binds. reflexivity.
Qed.

(** With no language input selected, [main] throws. *)
Lemma main_not_dispatched :
  dispatch w = None ->
  main w =
  ([GetInput "target-language"; GetInput "source-language";
    GetInput "language-codes-set"],
   Throw (Error "Not appropriate language code input setting")).
Proof.
  unfold dispatch, main. rewrite !getInput_optional. run_binds.
  destruct (negb _ && negb _); [discriminate |].
  destruct (negb _); [discriminate |].
  intros _. unfold throw. by rewrite prefixed_pair, app_nil_r.
Qed.

(** The module body never enters its [catch] clause: calling the [async]
    function [main] completes normally, whatever [main] does. *)
Lemma program_runs_main : program w = (trace (main w), Ok tt).
Proof.
  unfold program, tryCatch, async, ret. rewrite bind_Ok, prefixed_pair.
  cbn [fst snd]. by rewrite app_nil_r.
Qed.
End Main.

(** ** Which events each part emits *)

Create HintDb only.

Section Only.
Context (P : event -> bool).

Lemma only_ret {A} (a : A) : only P (ret a).
Proof. reflexivity. Qed.

Lemma only_throw {A} (e : exn) : only P (@throw A e).
Proof. reflexivity. Qed.

Lemma only_emit (ev : event) : P ev = true -> only P (emit ev).
Proof. unfold only. cbn. by intros ->. Qed.

Lemma only_bind {A B} (m : M A) (k : A -> M B) :
  only P m -> (forall a, only P (k a)) -> only P (bind m k).
Proof.
  unfold only. intros Hm Hk. rewrite trace_bind, forallb_app, Hm.
  destruct (outcome m); [apply Hk | reflexivity].
Qed.
End Only.

Lemma only_weaken (P Q : event -> bool) {A} (m : M A) :
  (forall ev, P ev = true -> Q ev = true) -> only P m -> only Q m.
Proof.
  unfold only. intros HPQ. induction (trace m) as [| ev tr IH]; [done |].
  cbn. intros [Hev Htr]%andb_true_iff. by rewrite (HPQ _ Hev), IH.
Qed.

Lemma unsignalled_failures (tr : list event) :
  forallb unsignalled tr = true -> failures tr = [].
Proof.
  induction tr as [| ev tr IH]; [done |].
  cbn. intros [Hev Htr]%andb_true_iff. destruct ev; try discriminate; auto.
Qed.

Lemma internal_outputs (tr : list event) :
  forallb internal tr = true -> outputs tr = [].
Proof.
  induction tr as [| ev tr IH]; [done |].
  cbn. intros [Hev Htr]%andb_true_iff. destruct ev; try discriminate; auto.
Qed.

Lemma internal_unsignalled (ev : event) :
  internal ev = true -> unsignalled ev = true.
Proof. by destruct ev. Qed.

Ltac only_events :=
  repeat first
    [ solve [auto with only]
    | apply only_ret
    | apply only_throw
    | apply only_emit; reflexivity
    | apply only_bind; [| intros ?]
    | progress cbv zeta
    | match goal with
      | |- only _ (if ?c then _ else _) => destruct c
      | |- only _ (match ?x with _ => _ end) => destruct x
      end ].

Lemma internal_getInput (w : World) (name : string) (required : bool) :
  only internal (core.getInput w name required).
Proof. unfold core.getInput. only_events. Qed.
#[local] Hint Resolve internal_getInput : only.

Lemma internal_fetch (w : World) (req : Request.t) : only internal (fetch w req).
Proof. unfold fetch. only_events. Qed.
#[local] Hint Resolve internal_fetch : only.

Lemma internal_json_of (req : Request.t) (resp : Response.t) :
  only internal (json_of req resp).
Proof. unfold json_of. only_events. Qed.
#[local] Hint Resolve internal_json_of : only.

Lemma internal_deleteGlossary (w : World) (p g t : string) :
  only internal (deleteGlossary w p g t).
Proof.
  unfold deleteGlossary, core.debug, core.warning, core.error. only_events.
Qed.
#[local] Hint Resolve internal_deleteGlossary : only.

Lemma internal_createGlossary (w : World) (i p t : string) :
  only internal (createGlossary w i p t).
Proof. unfold createGlossary, core.debug, core.error. only_events. Qed.
#[local] Hint Resolve internal_createGlossary : only.

Lemma internal_headOperation (w : World) (n t : string) :
  only internal (headOperation w n t).
Proof. unfold headOperation, core.debug, core.error. only_events. Qed.
#[local] Hint Resolve internal_headOperation : only.

Lemma internal_getRequiredInputs (w : World) :
  only internal (getRequiredInputs w).
Proof. unfold getRequiredInputs. only_events. Qed.
#[local] Hint Resolve internal_getRequiredInputs : only.

Lemma internal_buildInput (type : CreateType) (n f : string) (l : list string) :
  only internal (buildInput type n f l).
Proof. unfold buildInput. only_events. Qed.
#[local] Hint Resolve internal_buildInput : only.

(** [handler] sets no output and raises no failure signal. *)
Lemma internal_handler (w : World) (inputsRaw : list string) :
  only internal (handler w inputsRaw).
Proof.
  unfold handler, core.info, core.error, setTimeout. only_events.
Qed.

Lemma unsignalled_handler (w : World) (inputsRaw : list string) :
  only unsignalled (handler w inputsRaw).
Proof.
  apply (only_weaken internal); [apply internal_unsignalled |].
  apply internal_handler.
Qed.
#[local] Hint Resolve unsignalled_handler : only.

Lemma unsignalled_getInput (w : World) (name : string) (required : bool) :
  only unsignalled (core.getInput w name required).
Proof.
  apply (only_weaken internal); [apply internal_unsignalled |].
  apply internal_getInput.
Qed.
#[local] Hint Resolve unsignalled_getInput : only.

(** [main] raises no failure signal. *)
Lemma unsignalled_main (w : World) : only unsignalled (main w).
Proof. unfold main, core.info, core.setOutput. only_events. Qed.

Lemma silent_main (w : World) : failures (trace (main w)) = [].
Proof. apply unsignalled_failures, unsignalled_main. Qed.

Lemma handler_no_output (w : World) (inputsRaw : list string) :
  outputs (trace (handler w inputsRaw)) = [].
Proof. apply internal_outputs, internal_handler. Qed.

(** ** The primitives on sample values *)

Example parseInt_samples :
  JS.parseInt "120" = Some 120 /\ JS.parseInt "abc" = None /\
  JS.parseInt "" = None /\ JS.parseInt "-7" = Some (-7) /\
  JS.parseInt "12px" = Some 12 /\ JS.parseInt "0x1f" = Some 31 /\
  JS.parseInt "  42" = Some 42 /\ JS.parseInt "+" = None /\
  JS.parseInt "1.5" = Some 1.
Proof. repeat split; reflexivity. Qed.

Example split_samples :
  JS.split "," "en,fr,de" = ["en"; "fr"; "de"] /\
  JS.split "," "" = [""] /\ JS.split "," "a,,b," = ["a"; ""; "b"; ""].
Proof. repeat split; reflexivity. Qed.

Example trim_samples :
  JS.trim "  a b  " = "a b" /\ JS.trim "   " = "".
Proof. repeat split; reflexivity. Qed.

Example stringify_sample :
  JS.stringify (JS.JObj [("a", JS.JArr [JS.JStr "x"; JS.JNum 3])]) =
  "{" +:+ JS.dquote +:+ "a" +:+ JS.dquote +:+ ":[" +:+
  JS.dquote +:+ "x" +:+ JS.dquote +:+ ",3]}".
Proof. reflexivity. Qed.

(** ** The claims *)

(** C1 (the code departs from it).  In pair mode the top-level dispatch
    calls [handler] with the target language first and the source language
    second, and [handler] serialises its first input as [sourceLanguageCode]
    and its second as [targetLanguageCode].  With [target-language] "en" and
    [source-language] "fr" the one create call therefore carries
    [languagePair] = {sourceLanguageCode: "en", targetLanguageCode: "fr"},
    not {sourceLanguageCode: "fr", targetLanguageCode: "en"}; it carries no
    [languageCodesSet]. *)
Theorem C1_pair_mode_sends_target_as_source :
  (forall w first second,
      dispatch w = Some [first; second] ->
      first = inputValue w "target-language" /\
      second = inputValue w "source-language") /\
  (forall name path target source,
      JS.get "languagePair" (onePairRequest name path [target; source]) =
        Some (JS.JObj [("sourceLanguageCode", JS.JStr target);
                       ("targetLanguageCode", JS.JStr source)]) /\
      JS.get "languageCodesSet" (onePairRequest name path [target; source]) =
        None) /\
  inputs (Sample.pairWorld RUNNING) !! "target-language" = Some "en" /\
  inputs (Sample.pairWorld RUNNING) !! "source-language" = Some "fr" /\
  dispatch (Sample.pairWorld RUNNING) = Some ["en"; "fr"] /\
  createBodies (trace (main (Sample.pairWorld RUNNING))) =
    [JS.stringify
       (JS.JObj
          [("name", JS.JStr Sample.fullName);
           ("languagePair",
            JS.JObj [("sourceLanguageCode", JS.JStr "en");
                     ("targetLanguageCode", JS.JStr "fr")]);
           ("inputConfig",
            JS.JObj [("gcsSource",
                      JS.JObj [("inputUri", JS.JStr Sample.filePath)])])])].
Proof.
  split.
  { intros w first second. unfold dispatch.
    destruct (negb _ && negb _); [by intros [= <- <-] |].
    destruct (negb _); discriminate. }
  split; [intros; split; reflexivity |].
  repeat split; vm_compute; reflexivity.
Qed.

(** C2 (the code departs from it).  A refused create call (status 500) and
    a refused inspect call (status 503) do fail, and the response body or
    the decoded payload is logged at error level, but both throw the error
    of the delete operation, "delete request failed", and log "delete
    glossary request failed": the failure is not tagged with the operation
    that failed. *)
Theorem C2_create_and_inspect_failures_tagged_delete :
  (forall w input projectId accessToken rc,
      remote w (createRequest input projectId accessToken) = inr rc ->
      300 <= Response.status rc ->
      outcome (createGlossary w input projectId accessToken) =
        Throw (Error "delete request failed") /\
      errors (trace (createGlossary w input projectId accessToken)) =
        ["delete glossary request failed with status:" +:+
         pretty (Response.status rc) +:+ " message:" +:+ Response.text rc]) /\
  (forall w name accessToken rh payload,
      remote w (headRequest name accessToken) = inr rh ->
      300 <= Response.status rh ->
      Response.json rh = Some payload ->
      outcome (headOperation w name accessToken) =
        Throw (Error "delete request failed") /\
      errors (trace (headOperation w name accessToken)) =
        ["delete glossary request failed with status:" +:+
         pretty (Response.status rh) +:+ " message:" +:+
         JS.stringify (GoogleResponse.toJSON payload)]) /\
  outcome (createGlossary Sample.createRefused "{}" "p" "tok") =
    Throw (Error "delete request failed") /\
  errors (trace (createGlossary Sample.createRefused "{}" "p" "tok")) =
    ["delete glossary request failed with status:500 message:boom"] /\
  outcome (headOperation Sample.inspectRefused "operations/op1" "tok") =
    Throw (Error "delete request failed") /\
  errors (trace (headOperation Sample.inspectRefused "operations/op1" "tok")) =
    ["delete glossary request failed with status:503 message:" +:+
     JS.stringify (GoogleResponse.toJSON Sample.unavailable)] /\
  outcome (deleteGlossary Sample.deleteRefused "p" "g" "tok") =
    Throw (Error "delete request failed").
Proof.
  split.
  { intros w input projectId accessToken rc Hr Hs.
    by rewrite (createGlossary_failure _ _ _ _ _ Hr Hs). }
  split.
  { intros w name accessToken rh payload Hr Hs Hj.
    by rewrite (headOperation_failure _ _ _ _ _ Hr Hs Hj). }
  repeat split; vm_compute; reflexivity.
Qed.

(** C3 (the code departs from it).  The module body calls the [async]
    function [main] without awaiting it, so the call completes normally
    whatever happens inside [main]: the [catch] clause is never entered and
    the terminal failure signal is never raised, in any world.  Two runs in
    which [main] fails (no language input; the delete call refused) end
    without the signal. *)
Theorem C3_failure_of_main_never_signalled :
  (forall w, program w = (trace (main w), Ok tt) /\
             failures (trace (program w)) = []) /\
  outcome (main Sample.noLanguage) =
    Throw (Error "Not appropriate language code input setting") /\
  failures (trace (program Sample.noLanguage)) = [] /\
  outcome (main Sample.deleteRefused) = Throw (Error "delete request failed") /\
  failures (trace (program Sample.deleteRefused)) = [].
Proof.
  split.
  - intros w. split; [apply program_runs_main |].
    rewrite program_runs_main. apply silent_main.
  - repeat split; vm_compute; reflexivity.
Qed.

(** Discharges the path conditions of a run in a concrete world. *)
Ltac sample_path :=
  unfold reaches_inspect, reaches_create, reaches_delete, delete_passes,
    create_returns, inspect_returns;
  repeat first
    [ split
    | eexists
    | left; reflexivity
    | right; reflexivity
    | cbn; lia
    | discriminate ].

Lemma resolveWaitTime_cases (raw : string) :
  match JS.parseInt raw with
  | None => resolveWaitTime raw = 0
  | Some n => (300 < n /\ resolveWaitTime raw = 300) \/
              (n <= 300 /\ resolveWaitTime raw = n)
  end.
Proof.
  unfold resolveWaitTime. destruct (JS.parseInt raw) as [n |]; [| reflexivity].
  cbv zeta. destruct (Z.gtb_spec n 300); [left | right]; split; done || lia.
Qed.

Lemma waitTimeOf_absent (w : World) :
  inputs w !! "wait-time" = None -> waitTimeOf w = 0.
Proof. unfold waitTimeOf, inputValue. by intros ->. Qed.

(** The network calls and pauses of a run that gets to the inspect call. *)
Lemma handler_steps (w : World) (inputsRaw : list string)
    (ri : RequiredInputs.t) (input name : string) :
  reaches_inspect w inputsRaw ri input name ->
  steps (trace (handler w inputsRaw)) =
  [Call (deleteReq ri); Call (createReq ri input)] ++
  (if waitTimeOf w =? 0 then [] else [Pause (waitTimeOf w * 1000)]) ++
  [Call (headReq ri name)].
Proof.
  intros H.
  destruct (handler_inspect_reached _ _ _ _ _ H) as (pre & -> & Hsteps & _).
  rewrite trace_prefixed, steps_app, Hsteps, inspect_steps.
  by rewrite <- app_assoc.
Qed.

(** C4.  The wait time is 0 when the input does not parse as an integer
    (the empty string of an absent input, "abc"), 300 when the parsed value
    is above 300 ("400"), and the parsed value otherwise ("120").  A run that
    gets to the inspect call makes, in order, the delete call, the create
    call, one pause of wait time * 1000 milliseconds when the wait time is
    not 0 (and none when it is), and the one inspect call. *)
Theorem C4_wait_time_resolved_and_paused_once
    (w : World) (inputsRaw : list string) (ri : RequiredInputs.t)
    (input name : string) :
  reaches_inspect w inputsRaw ri input name ->
  (forall raw,
      match JS.parseInt raw with
      | None => resolveWaitTime raw = 0
      | Some n => (300 < n /\ resolveWaitTime raw = 300) \/
                  (n <= 300 /\ resolveWaitTime raw = n)
      end) /\
  (JS.parseInt "" = None /\ resolveWaitTime "" = 0) /\
  (JS.parseInt "abc" = None /\ resolveWaitTime "abc" = 0) /\
  (JS.parseInt "400" = Some 400 /\ resolveWaitTime "400" = 300) /\
  (JS.parseInt "120" = Some 120 /\ resolveWaitTime "120" = 120) /\
  (inputs w !! "wait-time" = None -> waitTimeOf w = 0) /\
  steps (trace (handler w inputsRaw)) =
    [Call (deleteReq ri); Call (createReq ri input)] ++
    (if waitTimeOf w =? 0 then [] else [Pause (waitTimeOf w * 1000)]) ++
    [Call (headReq ri name)].
Proof.
  intros H.
  split; [apply resolveWaitTime_cases |].
  do 4 (split; [split; reflexivity |]).
  split; [apply waitTimeOf_absent | by apply handler_steps].
Qed.

(** With [wait-time] "120" the run pauses once, for 120000 milliseconds,
    between the create call and the inspect call. *)
Lemma C4_witness :
  steps (trace (handler (Sample.waitingWorld "120") ["en,fr,de"])) =
  [Call (deleteReq Sample.ri);
   Call (createReq Sample.ri
           (JS.stringify
              (codesSetRequest Sample.fullName Sample.filePath
                 ["en"; "fr"; "de"])));
   Pause 120000;
   Call (headReq Sample.ri "operations/op1")].
Proof.
  refine (proj2 (proj2 (proj2 (proj2 (proj2 (proj2
    (C4_wait_time_resolved_and_paused_once
       (Sample.waitingWorld "120") ["en,fr,de"] Sample.ri _ _ _))))))).
  sample_path.
Defined.

(** C10.  A [wait-time] input that parses to a negative integer n resolves
    to n: nothing clamps it from below.  As n is not 0, a run that gets to
    the inspect call takes the wait branch and pauses for n * 1000
    milliseconds, a negative duration. *)
Theorem C10_negative_wait_time_is_kept
    (w : World) (inputsRaw : list string) (ri : RequiredInputs.t)
    (input name : string) (n : Z) :
  reaches_inspect w inputsRaw ri input name ->
  JS.parseInt (inputValue w "wait-time") = Some n ->
  n < 0 ->
  (forall raw, JS.parseInt raw = Some n -> resolveWaitTime raw = n) /\
  waitTimeOf w = n /\
  steps (trace (handler w inputsRaw)) =
    [Call (deleteReq ri); Call (createReq ri input); Pause (n * 1000);
     Call (headReq ri name)] /\
  n * 1000 < 0.
Proof.
  intros H Hparse Hneg.
  assert (Hres : forall raw, JS.parseInt raw = Some n -> resolveWaitTime raw = n).
  { intros raw Hraw. pose proof (resolveWaitTime_cases raw) as Hc.
    rewrite Hraw in Hc. destruct Hc as [[? _] | [_ ?]]; [lia | done]. }
  assert (Hw : waitTimeOf w = n) by (by apply Hres).
  repeat split; [done | done | | lia].
  rewrite (handler_steps _ _ _ _ _ H), Hw.
  replace (n =? 0) with false by (symmetry; apply Z.eqb_neq; lia).
  reflexivity.
Qed.

(** With [wait-time] "-5" the run pauses for -5000 milliseconds. *)
Lemma C10_witness :
  waitTimeOf (Sample.waitingWorld "-5") = -5 /\
  steps (trace (handler (Sample.waitingWorld "-5") ["en,fr,de"])) =
  [Call (deleteReq Sample.ri);
   Call (createReq Sample.ri
           (JS.stringify
              (codesSetRequest Sample.fullName Sample.filePath
                 ["en"; "fr"; "de"])));
   Pause (-5000);
   Call (headReq Sample.ri "operations/op1")].
Proof.
  assert (Hpath : reaches_inspect (Sample.waitingWorld "-5") ["en,fr,de"]
                    Sample.ri
                    (JS.stringify
                       (codesSetRequest Sample.fullName Sample.filePath
                          ["en"; "fr"; "de"]))
                    "operations/op1") by sample_path.
  assert (Hparse : JS.parseInt
                     (inputValue (Sample.waitingWorld "-5") "wait-time") =
                   Some (-5)) by reflexivity.
  assert (Hneg : -5 < 0) by lia.
  pose proof (C10_negative_wait_time_is_kept _ _ _ _ _ _ Hpath Hparse Hneg)
    as (_ & Hw & Hsteps & _).
  split; [exact Hw | exact Hsteps].
Defined.

(** ** Delete, then create *)

Section DeleteThenCreate.
Context (w : World) (inputsRaw : list string) (ri : RequiredInputs.t).

Lemma createGlossary_steps (input projectId accessToken : string) :
  steps (trace (createGlossary w input projectId accessToken)) =
  [Call (createRequest input projectId accessToken)].
Proof.
  unfold createGlossary, json_of. cbv zeta.
  destruct (remote w (createRequest input projectId accessToken))
    as [e | rc] eqn:Hr.
  - by rewrite (fetch_reject _ _ _ Hr).
  - rewrite (fetch_answer _ _ _ Hr), bind_Ok.
    destruct (Response.status rc >=? 300), (Response.json rc); reflexivity.
Qed.

(** Once the request body is built, the create call is made. *)
Lemma handler_create_steps (input : string) :
  exists rest,
    steps (trace (handler_create w ri input)) =
    Call (createReq ri input) :: rest.
Proof.
  unfold handler_create, core.info, emit.
  rewrite bind_Ok, trace_prefixed, trace_bind, !steps_app,
    createGlossary_steps.
  eexists. reflexivity.
Qed.

(** With at least one language input the request body is built. *)
Lemma inputOf_total :
  inputsRaw <> [] -> exists input, outcome (inputOf inputsRaw ri) = Ok input.
Proof.
  intros Hne. unfold inputOf, buildInput.
  destruct (typeOf inputsRaw); [by eexists |].
  destruct inputsRaw as [| first rest]; [done | by eexists].
Qed.

(** The delete call was refused: nothing more happens. *)
Lemma handler_delete_refused (rd : Response.t) :
  reaches_delete w inputsRaw ri ->
  remote w (deleteReq ri) = inr rd ->
  300 <= Response.status rd -> Response.status rd <> 404 ->
  outcome (handler w inputsRaw) = Throw (Error "delete request failed") /\
  steps (trace (handler w inputsRaw)) = [Call (deleteReq ri)].
Proof.
  intros Hd Hr Hs Hn.
  rewrite (handler_delete_phase _ _ _ Hd),
    (deleteGlossary_failure _ _ _ _ _ Hr Hs Hn), bind_Throw, prefixed_pair.
  split; [reflexivity |].
  unfold trace. cbn [fst]. rewrite !steps_app. reflexivity.
Qed.
End DeleteThenCreate.

(** C5.  A delete call answered with 404 does not raise: it returns after
    a warning line and no error line, and the run goes on to the create
    call.  Answered with any other status from 300 up, it raises the delete
    failure, which ends [handler] with the delete call as its only call. *)
Theorem C5_delete_404_passes_other_failures_stop
    (w : World) (inputsRaw : list string) (ri : RequiredInputs.t)
    (rd : Response.t) :
  reaches_delete w inputsRaw ri ->
  remote w (deleteReq ri) = inr rd ->
  let deletion :=
    deleteGlossary w (RequiredInputs.projectId ri)
      (RequiredInputs.glossaryName ri) (RequiredInputs.accessToken ri) in
  (Response.status rd = 404 ->
     outcome deletion = Ok tt /\
     warnings (trace deletion) =
       ["glossary " +:+ RequiredInputs.glossaryName ri +:+
        " is not found,continue to create"] /\
     errors (trace deletion) = [] /\
     (inputsRaw <> [] ->
      exists input rest,
        outcome (inputOf inputsRaw ri) = Ok input /\
        steps (trace (handler w inputsRaw)) =
          Call (deleteReq ri) :: Call (createReq ri input) :: rest)) /\
  (300 <= Response.status rd -> Response.status rd <> 404 ->
     outcome deletion = Throw (Error "delete request failed") /\
     outcome (handler w inputsRaw) = Throw (Error "delete request failed") /\
     steps (trace (handler w inputsRaw)) = [Call (deleteReq ri)]).
Proof.
  intros Hd Hr deletion. split.
  - intros Hs. subst deletion.
    rewrite (deleteGlossary_404 _ _ _ _ _ Hr Hs).
    do 3 (split; [reflexivity |]). intros Hne.
    destruct (inputOf_total inputsRaw ri Hne) as (input & Hin).
    assert (Hc : reaches_create w inputsRaw ri input).
    { split; [done |]. split; [| done]. exists rd. by split; [| left]. }
    destruct (handler_create_phase _ _ _ _ Hc) as (pre & -> & Hsteps & _).
    destruct (handler_create_steps w ri input) as (rest & Hrest).
    exists input, rest. split; [done |].
    by rewrite trace_prefixed, steps_app, Hsteps, Hrest.
  - intros Hs Hn. subst deletion.
    rewrite (deleteGlossary_failure _ _ _ _ _ Hr Hs Hn).
    split; [reflexivity |].
    by apply (handler_delete_refused _ _ _ rd).
Qed.

(** A 404 on delete is followed by the create call; a 403 ends the run
    after the delete call. *)
Lemma C5_witness :
  (exists input rest,
      outcome (inputOf ["en"; "fr"] Sample.ri) = Ok input /\
      steps (trace (handler (Sample.pairWorld RUNNING) ["en"; "fr"])) =
        Call (deleteReq Sample.ri) :: Call (createReq Sample.ri input) :: rest) /\
  (outcome (handler Sample.deleteRefused ["en"; "fr"]) =
     Throw (Error "delete request failed") /\
   steps (trace (handler Sample.deleteRefused ["en"; "fr"])) =
     [Call (deleteReq Sample.ri)]).
Proof.
  split.
  - assert (Hd : reaches_delete (Sample.pairWorld RUNNING) ["en"; "fr"] Sample.ri)
      by sample_path.
    assert (Hne : ["en"; "fr"] <> @nil string) by discriminate.
    assert (Hr : remote (Sample.pairWorld RUNNING) (deleteReq Sample.ri) =
                 inr {| Response.status := 404; Response.text := "not found";
                        Response.json := None |}) by reflexivity.
    pose proof (C5_delete_404_passes_other_failures_stop _ _ _ _ Hd Hr)
      as [H404 _].
    exact (proj2 (proj2 (proj2 (H404 eq_refl))) Hne).
  - assert (Hd : reaches_delete Sample.deleteRefused ["en"; "fr"] Sample.ri)
      by sample_path.
    assert (Hr : remote Sample.deleteRefused (deleteReq Sample.ri) =
                 inr {| Response.status := 403; Response.text := "forbidden";
                        Response.json := None |}) by reflexivity.
    pose proof (C5_delete_404_passes_other_failures_stop _ _ _ _ Hd Hr)
      as [_ Hfail].
    refine (proj2 (Hfail _ _)); cbn; lia.
Defined.

(** C6.  When the create call succeeds (status below 300) with a decoded
    body that has no [name], [handler] logs and throws "failed to parse
    google response of name field"; up to then it has made the delete call
    and the create call and read the five mandatory inputs only: the
    [wait-time] input is not read, there is no pause and no inspect call. *)
Theorem C6_missing_name_fails_before_wait_and_inspect
    (w : World) (inputsRaw : list string) (ri : RequiredInputs.t)
    (input : string) :
  reaches_create w inputsRaw ri input ->
  create_returns w ri input None ->
  outcome (handler w inputsRaw) =
    Throw (Error "failed to parse google response of name field") /\
  errors (trace (handler w inputsRaw)) =
    ["failed to parse google response of name field"] /\
  steps (trace (handler w inputsRaw)) =
    [Call (deleteReq ri); Call (createReq ri input)] /\
  reads (trace (handler w inputsRaw)) = requiredNames /\
  "wait-time" ∉ reads (trace (handler w inputsRaw)).
Proof.
  intros Hc Hr.
  destruct (handler_create_phase _ _ _ _ Hc) as (pre & -> & Hsteps & Hreads & Herrs).
  rewrite (handler_create_unnamed _ _ _ _ Hr eq_refl), prefixed_pair.
  unfold outcome, trace. cbn [fst snd].
  rewrite steps_app, reads_app, errors_app, Hsteps, Hreads, Herrs.
  repeat split.
  cbn. unfold requiredNames. rewrite !not_elem_of_cons.
  repeat split; try discriminate. apply not_elem_of_nil.
Qed.

(** A create answer of status 200 with body {} ends the run after the
    create call. *)
Lemma C6_witness :
  outcome (handler Sample.unnamed ["en"; "fr"]) =
    Throw (Error "failed to parse google response of name field") /\
  steps (trace (handler Sample.unnamed ["en"; "fr"])) =
    [Call (deleteReq Sample.ri);
     Call (createReq Sample.ri
             (JS.stringify
                (onePairRequest Sample.fullName Sample.filePath ["en"; "fr"])))].
Proof.
  assert (Hc : reaches_create Sample.unnamed ["en"; "fr"] Sample.ri
                 (JS.stringify
                    (onePairRequest Sample.fullName Sample.filePath
                       ["en"; "fr"]))) by sample_path.
  assert (Hr : create_returns Sample.unnamed Sample.ri
                 (JS.stringify
                    (onePairRequest Sample.fullName Sample.filePath
                       ["en"; "fr"])) None) by sample_path.
  pose proof (C6_missing_name_fails_before_wait_and_inspect _ _ _ _ Hc Hr)
    as (Hout & _ & Hsteps & _).
  split; [exact Hout | exact Hsteps].
Defined.

(** ** The verdict on the snapshot, and what [main] reports *)

Lemma same_true (a b : option string) : JS.same a b = true <-> a = b.
Proof.
  destruct a as [x |], b as [y |]; cbn; try (split; done).
  rewrite String.eqb_eq. split; [by intros -> | by intros [= ->]].
Qed.

Lemma same_false (a b : option string) : a <> b -> JS.same a b = false.
Proof.
  intros Hne. destruct (JS.same a b) eqn:H; [| done].
  by apply same_true in H.
Qed.

Section Verdict.
Context (w : World) (inputsRaw : list string) (ri : RequiredInputs.t)
        (input name : string) (message : GoogleResponse.t).
Hypothesis Hpath : reaches_inspect w inputsRaw ri input name.
Hypothesis Hsnap : inspect_returns w ri name message.

(** The run is the events up to the inspect call, the call, and the
    checks on the snapshot. *)
Lemma handler_verdict :
  exists pre,
    handler w inputsRaw = prefixed pre (handler_check message) /\
    errors pre = [].
Proof.
  destruct (handler_inspect_reached _ _ _ _ _ Hpath) as (pre & Hh & _ & _ & He).
  destruct Hsnap as (rh & Hr & Hs & Hj).
  exists (pre ++ [Fetch (headReq ri name)]). split.
  - rewrite Hh. unfold headReq in Hr.
    by rewrite (inspect_verdict _ _ _ _ _ Hr Hs Hj), prefixed_prefixed.
  - by rewrite errors_app, He.
Qed.

Lemma handler_no_metadata :
  GoogleResponse.metadata message = None ->
  outcome (handler w inputsRaw) =
    Throw (Error "failed to parse google response of metaData field") /\
  errors (trace (handler w inputsRaw)) =
    ["failed to parse google response of metaData field"].
Proof.
  intros Hm. destruct handler_verdict as (pre & -> & He).
  unfold handler_check. rewrite Hm, trace_prefixed, errors_app, He.
  by split.
Qed.

Lemma handler_failed (md : MetaData.t) :
  GoogleResponse.metadata message = Some md ->
  MetaData.state md = FAILED ->
  outcome (handler w inputsRaw) = Throw (Error "create operation failed") /\
  errors (trace (handler w inputsRaw)) =
    ["create operation has failed. message:" +:+
     JS.show (ErrorMessage.message <$> GoogleResponse.error message)].
Proof.
  intros Hm Hst. destruct handler_verdict as (pre & -> & He).
  unfold handler_check. rewrite Hm, Hst, trace_prefixed, errors_app, He.
  by split.
Qed.

Lemma handler_not_failed (md : MetaData.t) :
  GoogleResponse.metadata message = Some md ->
  MetaData.state md <> FAILED ->
  outcome (handler w inputsRaw) = Ok message.
Proof.
  intros Hm Hst. destruct handler_verdict as (pre & -> & He).
  unfold handler_check. by rewrite Hm, (same_false _ _ Hst).
Qed.

Lemma announce_no_output : outputs (announce inputsRaw) = [].
Proof. by destruct inputsRaw as [| a [| b [| c l]]]. Qed.

(** [main], once [handler] has returned the snapshot. *)
Lemma main_reports :
  dispatch w = Some inputsRaw ->
  outcome (handler w inputsRaw) = Ok message ->
  main w =
  prefixed (announce inputsRaw ++ trace (handler w inputsRaw))
    (main_report message).
Proof.
  intros Hd Hh. rewrite (main_dispatched _ _ Hd).
  destruct (handler w inputsRaw) as [tr r]. cbn in Hh. subst r.
  by rewrite bind_Ok, prefixed_prefixed.
Qed.

Lemma main_running (md : MetaData.t) :
  dispatch w = Some inputsRaw ->
  GoogleResponse.metadata message = Some md ->
  MetaData.state md = RUNNING ->
  outcome (main w) = Ok tt /\
  outputs (trace (main w)) =
    [("operation-name", GoogleResponse.name message)].
Proof.
  intros Hd Hm Hst.
  assert (Hh : outcome (handler w inputsRaw) = Ok message).
  { apply (handler_not_failed md); [done |]. by rewrite Hst. }
  rewrite (main_reports Hd Hh). unfold main_report, stateOf.
  rewrite Hm. cbn [fmap option_fmap option_map]. rewrite Hst.
  split; [reflexivity |].
  rewrite trace_prefixed, !outputs_app, announce_no_output,
    handler_no_output.
  reflexivity.
Qed.

Lemma main_succeeded (md : MetaData.t) :
  dispatch w = Some inputsRaw ->
  GoogleResponse.metadata message = Some md ->
  MetaData.state md = SUCCEEDED ->
  outcome (main w) = Ok tt /\
  outputs (trace (main w)) = [] /\
  last (trace (main w)) = Some (Info "update is SUCCEEDED").
Proof.
  intros Hd Hm Hst.
  assert (Hh : outcome (handler w inputsRaw) = Ok message).
  { apply (handler_not_failed md); [done |]. by rewrite Hst. }
  rewrite (main_reports Hd Hh). unfold main_report, stateOf.
  rewrite Hm. cbn [fmap option_fmap option_map]. rewrite Hst.
  split; [reflexivity |]. rewrite trace_prefixed. split.
  - rewrite !outputs_app, announce_no_output, handler_no_output.
    reflexivity.
  - apply last_snoc.
Qed.
End Verdict.

(** C7.  After the one inspect call has returned a snapshot: with no
    [metadata], [handler] throws "failed to parse google response of metaData
    field"; with state FAILED it logs at error level "create operation has
    failed. message:" followed by the message of the remote error and
    throws "create operation failed"; with state RUNNING it returns the
    snapshot and [main] sets the output [operation-name] to the name in the
    snapshot; with state SUCCEEDED it returns the snapshot and [main] sets no
    output, its last event being the log line of the state. *)
Theorem C7_verdict_on_the_snapshot
    (w : World) (inputsRaw : list string) (ri : RequiredInputs.t)
    (input name : string) (message : GoogleResponse.t) :
  reaches_inspect w inputsRaw ri input name ->
  inspect_returns w ri name message ->
  (GoogleResponse.metadata message = None ->
     outcome (handler w inputsRaw) =
       Throw (Error "failed to parse google response of metaData field")) /\
  (forall md,
     GoogleResponse.metadata message = Some md ->
     MetaData.state md = FAILED ->
     outcome (handler w inputsRaw) = Throw (Error "create operation failed") /\
     (forall e,
        GoogleResponse.error message = Some e ->
        errors (trace (handler w inputsRaw)) =
          ["create operation has failed. message:" +:+ ErrorMessage.message e])) /\
  (forall md,
     GoogleResponse.metadata message = Some md ->
     MetaData.state md = RUNNING ->
     outcome (handler w inputsRaw) = Ok message /\
     (dispatch w = Some inputsRaw ->
      outcome (main w) = Ok tt /\
      outputs (trace (main w)) =
        [("operation-name", GoogleResponse.name message)])) /\
  (forall md,
     GoogleResponse.metadata message = Some md ->
     MetaData.state md = SUCCEEDED ->
     outcome (handler w inputsRaw) = Ok message /\
     (dispatch w = Some inputsRaw ->
      outcome (main w) = Ok tt /\
      outputs (trace (main w)) = [] /\
      last (trace (main w)) = Some (Info "update is SUCCEEDED"))).
Proof.
  intros Hpath Hsnap. repeat apply conj.
  - intros Hm. by apply (handler_no_metadata _ _ _ _ _ _ Hpath Hsnap).
  - intros md Hm Hst.
    destruct (handler_failed _ _ _ _ _ _ Hpath Hsnap md Hm Hst) as [Ho He].
    split; [done |]. intros e Herr. by rewrite He, Herr.
  - intros md Hm Hst. split.
    + apply (handler_not_failed _ _ _ _ _ _ Hpath Hsnap md Hm). by rewrite Hst.
    + intros Hd. by apply (main_running _ _ _ _ _ _ Hpath Hsnap md).
  - intros md Hm Hst. split.
    + apply (handler_not_failed _ _ _ _ _ _ Hpath Hsnap md Hm). by rewrite Hst.
    + intros Hd. by apply (main_succeeded _ _ _ _ _ _ Hpath Hsnap md).
Qed.

(** The four verdicts, in four worlds that differ in the snapshot only. *)
Lemma C7_witness :
  outcome (handler Sample.bareWorld ["en"; "fr"]) =
    Throw (Error "failed to parse google response of metaData field") /\
  (outcome (handler Sample.failedWorld ["en"; "fr"]) =
     Throw (Error "create operation failed") /\
   errors (trace (handler Sample.failedWorld ["en"; "fr"])) =
     ["create operation has failed. message:bad glossary file"]) /\
  (outcome (main (Sample.pairWorld RUNNING)) = Ok tt /\
   outputs (trace (main (Sample.pairWorld RUNNING))) =
     [("operation-name", Some "operations/op1")]) /\
  (outcome (main (Sample.pairWorld SUCCEEDED)) = Ok tt /\
   outputs (trace (main (Sample.pairWorld SUCCEEDED))) = [] /\
   last (trace (main (Sample.pairWorld SUCCEEDED))) =
     Some (Info "update is SUCCEEDED")).
Proof.
  pose (body := JS.stringify
                  (onePairRequest Sample.fullName Sample.filePath ["en"; "fr"])).
  repeat apply conj.
  - assert (Hp : reaches_inspect Sample.bareWorld ["en"; "fr"] Sample.ri body
                   "operations/op1") by sample_path.
    assert (Hs : inspect_returns Sample.bareWorld Sample.ri "operations/op1"
                   (Sample.operation (Some "operations/op1") None None))
      by sample_path.
    exact (proj1 (C7_verdict_on_the_snapshot _ _ _ _ _ _ Hp Hs) eq_refl).
  - assert (Hp : reaches_inspect Sample.failedWorld ["en"; "fr"] Sample.ri body
                   "operations/op1") by sample_path.
    assert (Hs : inspect_returns Sample.failedWorld Sample.ri "operations/op1"
                   (Sample.operation (Some "operations/op1") (Some FAILED)
                      (Some {| ErrorMessage.code := 3;
                               ErrorMessage.message := "bad glossary file";
                               ErrorMessage.status := None |})))
      by sample_path.
    exact (proj1 (proj1 (proj2 (C7_verdict_on_the_snapshot _ _ _ _ _ _ Hp Hs))
                    _ eq_refl eq_refl)).
  - assert (Hp : reaches_inspect Sample.failedWorld ["en"; "fr"] Sample.ri body
                   "operations/op1") by sample_path.
    assert (Hs : inspect_returns Sample.failedWorld Sample.ri "operations/op1"
                   (Sample.operation (Some "operations/op1") (Some FAILED)
                      (Some {| ErrorMessage.code := 3;
                               ErrorMessage.message := "bad glossary file";
                               ErrorMessage.status := None |})))
      by sample_path.
    exact (proj2 (proj1 (proj2 (C7_verdict_on_the_snapshot _ _ _ _ _ _ Hp Hs))
                    _ eq_refl eq_refl) _ eq_refl).
  - assert (Hp : reaches_inspect (Sample.pairWorld RUNNING) ["en"; "fr"]
                   Sample.ri body "operations/op1") by sample_path.
    assert (Hs : inspect_returns (Sample.pairWorld RUNNING) Sample.ri
                   "operations/op1"
                   (Sample.operation (Some "operations/op1") (Some RUNNING) None))
      by sample_path.
    exact (proj1 (proj2 (proj1 (proj2 (proj2
             (C7_verdict_on_the_snapshot _ _ _ _ _ _ Hp Hs)))
             _ eq_refl eq_refl) eq_refl)).
  - assert (Hp : reaches_inspect (Sample.pairWorld RUNNING) ["en"; "fr"]
                   Sample.ri body "operations/op1") by sample_path.
    assert (Hs : inspect_returns (Sample.pairWorld RUNNING) Sample.ri
                   "operations/op1"
                   (Sample.operation (Some "operations/op1") (Some RUNNING) None))
      by sample_path.
    exact (proj2 (proj2 (proj1 (proj2 (proj2
             (C7_verdict_on_the_snapshot _ _ _ _ _ _ Hp Hs)))
             _ eq_refl eq_refl) eq_refl)).
  - assert (Hp : reaches_inspect (Sample.pairWorld SUCCEEDED) ["en"; "fr"]
                   Sample.ri body "operations/op1") by sample_path.
    assert (Hs : inspect_returns (Sample.pairWorld SUCCEEDED) Sample.ri
                   "operations/op1"
                   (Sample.operation (Some "operations/op1") (Some SUCCEEDED)
                      None))
      by sample_path.
    exact (proj1 (proj2 (proj2 (proj2 (proj2
             (C7_verdict_on_the_snapshot _ _ _ _ _ _ Hp Hs)))
             _ eq_refl eq_refl) eq_refl)).
  - assert (Hp : reaches_inspect (Sample.pairWorld SUCCEEDED) ["en"; "fr"]
                   Sample.ri body "operations/op1") by sample_path.
    assert (Hs : inspect_returns (Sample.pairWorld SUCCEEDED) Sample.ri
                   "operations/op1"
                   (Sample.operation (Some "operations/op1") (Some SUCCEEDED)
                      None))
      by sample_path.
    exact (proj1 (proj2 (proj2 (proj2 (proj2 (proj2
             (C7_verdict_on_the_snapshot _ _ _ _ _ _ Hp Hs)))
             _ eq_refl eq_refl) eq_refl))).
  - assert (Hp : reaches_inspect (Sample.pairWorld SUCCEEDED) ["en"; "fr"]
                   Sample.ri body "operations/op1") by sample_path.
    assert (Hs : inspect_returns (Sample.pairWorld SUCCEEDED) Sample.ri
                   "operations/op1"
                   (Sample.operation (Some "operations/op1") (Some SUCCEEDED)
                      None))
      by sample_path.
    exact (proj2 (proj2 (proj2 (proj2 (proj2 (proj2
             (C7_verdict_on_the_snapshot _ _ _ _ _ _ Hp Hs)))
             _ eq_refl eq_refl) eq_refl))).
Defined.

(** ** Strings and their literals *)

Lemma append_assoc (a b c : string) : (a +:+ b) +:+ c = a +:+ b +:+ c.
Proof.
  induction a as [| x a IH]; [done |].
  change (String x ((a +:+ b) +:+ c) = String x (a +:+ b +:+ c)).
  by rewrite IH.
Qed.

Section Split.
Context (sep : ascii).

Lemma split_nonempty (s : string) : JS.split sep s <> [].
Proof.
  destruct s as [| c r]; [done |]. cbn.
  destruct (Ascii.eqb c sep); [done |]. by destruct (JS.split sep r).
Qed.

Lemma split_join (s : string) :
  String.concat (String sep EmptyString) (JS.split sep s) = s.
Proof.
  induction s as [| c r IH]; [reflexivity |]. cbn [JS.split].
  pose proof (split_nonempty r) as Hne.
  destruct (Ascii.eqb_spec c sep) as [-> | Hc].
  - destruct (JS.split sep r) as [| piece pieces]; [done |].
    change (String sep (String.concat (String sep EmptyString) (piece :: pieces))
            = String sep r).
    by rewrite IH.
  - destruct (JS.split sep r) as [| piece pieces]; [done |].
    rewrite <- IH. by destruct pieces.
Qed.

Lemma split_length (s : string) :
  List.length (JS.split sep s) = S (occurrences sep s).
Proof.
  induction s as [| c r IH]; [reflexivity |]. cbn [JS.split occurrences].
  pose proof (split_nonempty r) as Hne.
  destruct (Ascii.eqb c sep); cbn [List.length].
  - by rewrite IH.
  - destruct (JS.split sep r) as [| piece pieces]; [done |].
    cbn in IH |- *. lia.
Qed.

Lemma split_pieces (s : string) :
  Forall (fun piece => occurrences sep piece = 0%nat) (JS.split sep s).
Proof.
  induction s as [| c r IH]; [by repeat constructor |]. cbn [JS.split].
  pose proof (split_nonempty r) as Hne.
  destruct (Ascii.eqb c sep) eqn:Hc.
  - by constructor.
  - destruct (JS.split sep r) as [| piece pieces]; [done |].
    apply Forall_cons in IH as [Hp Hps].
    constructor; [| done]. cbn. by rewrite Hc.
Qed.
End Split.

(** Reading back what [JS.escape] wrote for one character. *)
Lemma read_literal_escape (c : ascii) (text : string) :
  JS.read_literal (JS.escape c +:+ text) =
  match JS.read_literal text with
  | Some (t, rest) => Some (String c t, rest)
  | None => None
  end.
Proof. destruct c as [[] [] [] [] [] [] [] []]; reflexivity. Qed.

Lemma read_literal_escaped (s rest : string) :
  JS.read_literal (JS.escaped s +:+ JS.dquote +:+ rest) = Some (s, rest).
Proof.
  induction s as [| c s IH]; [reflexivity |].
  change (JS.escaped (String c s)) with (JS.escape c +:+ JS.escaped s).
  by rewrite append_assoc, read_literal_escape, IH.
Qed.

(** A string literal reads back as the string it was written for. *)
Lemma unquote_quote (s : string) : JS.unquote (JS.quote s) = Some s.
Proof.
  unfold JS.quote, JS.unquote.
  change (JS.dquote +:+ JS.escaped s +:+ JS.dquote)
    with (String "034" (JS.escaped s +:+ JS.dquote +:+ "")).
  cbn [nat_of_ascii]. by rewrite read_literal_escaped.
Qed.

Lemma escape_plain (c : ascii) : JS.plain c -> JS.escape c = String c "".
Proof.
  intros (H32 & H34 & H92). unfold JS.escape. cbv zeta.
  rewrite (proj2 (Nat.eqb_neq _ 34) H34), (proj2 (Nat.eqb_neq _ 92) H92).
  repeat match goal with
         | |- context [(nat_of_ascii c =? ?k)%nat] =>
             rewrite (proj2 (Nat.eqb_neq (nat_of_ascii c) k)) by lia
         end.
  by rewrite (proj2 (Nat.ltb_ge _ 32)) by lia.
Qed.

Lemma quote_plain (s : string) :
  Forall JS.plain (list_ascii_of_string s) -> JS.quote s = JS.quoted s.
Proof.
  intros H. unfold JS.quote, JS.quoted. f_equal.
  assert (He : JS.escaped s = s); [| by rewrite He].
  induction s as [| c s IH]; [done |].
  cbn in H. apply Forall_cons in H as [Hc Hs].
  change (JS.escaped (String c s)) with (JS.escape c +:+ JS.escaped s).
  by rewrite (escape_plain c Hc), (IH Hs).
Qed.

Lemma stringify_strings (l : list string) :
  map JS.stringify (JS.JStr <$> l) = JS.quote <$> l.
Proof. induction l as [| x l IH]; [done |]. cbn. by rewrite IH. Qed.

(** The text of the codes-set body. *)
Lemma codesSet_text (fullName path : string) (l : list string) :
  JS.stringify (codesSetRequest fullName path l) =
  "{" +:+ JS.quoted "name" +:+ ":" +:+ JS.quote fullName +:+ "," +:+
  JS.quoted "languageCodesSet" +:+ ":{" +:+ JS.quoted "languageCodes" +:+
  ":[" +:+ String.concat "," (JS.quote <$> l) +:+ "]}," +:+
  JS.quoted "inputConfig" +:+ ":{" +:+ JS.quoted "gcsSource" +:+ ":{" +:+
  JS.quoted "inputUri" +:+ ":" +:+ JS.quote path +:+ "}}}".
Proof.
  unfold codesSetRequest, inputConfig.
  cbn [JS.stringify map String.concat].
  rewrite stringify_strings, !append_assoc. reflexivity.
Qed.

(** The text of the pair body. *)
Lemma onePair_text (fullName path first second : string) :
  JS.stringify (onePairRequest fullName path [first; second]) =
  "{" +:+ JS.quoted "name" +:+ ":" +:+ JS.quote fullName +:+ "," +:+
  JS.quoted "languagePair" +:+ ":{" +:+
  JS.quoted "sourceLanguageCode" +:+ ":" +:+ JS.quote first +:+ "," +:+
  JS.quoted "targetLanguageCode" +:+ ":" +:+ JS.quote second +:+ "}," +:+
  JS.quoted "inputConfig" +:+ ":{" +:+ JS.quoted "gcsSource" +:+ ":{" +:+
  JS.quoted "inputUri" +:+ ":" +:+ JS.quote path +:+ "}}}".
Proof.
  unfold onePairRequest, inputConfig.
  cbn [JS.stringify map String.concat JS.prop lookup list_lookup fmap
       option_fmap option_map app].
  rewrite !append_assoc. reflexivity.
Qed.

(** ** The request body *)

(** The mandatory inputs are the trimmed values of the five inputs. *)
Lemma getRequiredInputs_values (w : World) (ri : RequiredInputs.t) :
  outcome (getRequiredInputs w) = Ok ri ->
  ri = {| RequiredInputs.accessToken := inputValue w "access-token";
          RequiredInputs.bucketName := inputValue w "bucket-name";
          RequiredInputs.glossaryName := inputValue w "glossary-name";
          RequiredInputs.glossaryFileName := inputValue w "glossary-file-name";
          RequiredInputs.projectId := inputValue w "project-id" |}.
Proof.
  unfold getRequiredInputs.
  rewrite getInput_optional, !getInput_required, bind_Ok. cbv beta.
  repeat (destruct (String.eqb _ _);
          [rewrite ?bind_Ok, ?bind_Throw; cbv beta; rewrite ?bind_Throw;
           discriminate |]; rewrite bind_Ok; cbv beta).
  unfold outcome, ret. cbn. intros [= <-]. reflexivity.
Qed.

Section RequestBody.
Context (inputsRaw : list string) (ri : RequiredInputs.t).

Let fullName :=
  "projects/" +:+ RequiredInputs.projectId ri +:+
  "/locations/us-central1/glossaries/" +:+ RequiredInputs.glossaryName ri.
Let filePath :=
  "gs://" +:+ RequiredInputs.bucketName ri +:+ "/" +:+
  RequiredInputs.glossaryFileName ri.

(** The body that is built, by the number of language inputs. *)
Lemma inputOf_cases (input : string) :
  (List.length inputsRaw <= 2)%nat ->
  outcome (inputOf inputsRaw ri) = Ok input ->
  (exists codes,
      inputsRaw = [codes] /\
      input = JS.stringify
                (codesSetRequest fullName filePath (JS.split "," codes))) \/
  (exists first second,
      inputsRaw = [first; second] /\
      input = JS.stringify (onePairRequest fullName filePath [first; second])).
Proof.
  intros Hlen. unfold inputOf.
  destruct inputsRaw as [| a [| b [| c l]]]; cbn in Hlen.
  - discriminate.
  - intros [= <-]. left. by eexists.
  - intros [= <-]. right. by do 2 eexists.
  - lia.
Qed.
End RequestBody.

(** C8.  Codes-set mode splits its one input on commas ("en,fr,de" gives
    the three codes) and serialises them as [languageCodesSet.languageCodes],
    with no [languagePair].  In either mode the body of the create call is
    the serialisation of an object whose [name] is
    projects/{project-id}/locations/us-central1/glossaries/{glossary-name}
    and whose [inputConfig.gcsSource.inputUri] is
    gs://{bucket-name}/{glossary-file-name}.

    The body is also given as text, character for character, in both modes;
    the string literals in it read back as the strings they were written
    for, and a string of plain characters is written as it is between
    double quotes.  The codes are characterised without reference to the
    splitting function: they hold no comma, there is at least one, and
    joined with commas they give the input back. *)
Theorem C8_request_body_of_each_mode
    (w : World) (inputsRaw : list string) (ri : RequiredInputs.t)
    (input : string) :
  reaches_create w inputsRaw ri input ->
  JS.split "," "en,fr,de" = ["en"; "fr"; "de"] /\
  (exists rest,
      steps (trace (handler w inputsRaw)) =
      Call (deleteReq ri) :: Call (createReq ri input) :: rest) /\
  (exists request,
    input = JS.stringify request /\
    JS.get "name" request =
      Some (JS.JStr ("projects/" +:+ inputValue w "project-id" +:+
                     "/locations/us-central1/glossaries/" +:+
                     inputValue w "glossary-name")) /\
    inputUri request =
      Some (JS.JStr ("gs://" +:+ inputValue w "bucket-name" +:+ "/" +:+
                     inputValue w "glossary-file-name")) /\
    (forall codes,
        inputsRaw = [codes] ->
        JS.get "languageCodesSet" request =
          Some (JS.JObj [("languageCodes",
                          JS.JArr (JS.JStr <$> JS.split "," codes))]) /\
        JS.get "languagePair" request = None) /\
    (forall first second,
        inputsRaw = [first; second] ->
        JS.get "languageCodesSet" request = None /\
        is_Some (JS.get "languagePair" request))) /\
  let fullName :=
    "projects/" +:+ inputValue w "project-id" +:+
    "/locations/us-central1/glossaries/" +:+ inputValue w "glossary-name" in
  let path :=
    "gs://" +:+ inputValue w "bucket-name" +:+ "/" +:+
    inputValue w "glossary-file-name" in
  (forall codes,
      inputsRaw = [codes] ->
      JS.split "," codes <> [] /\
      String.concat "," (JS.split "," codes) = codes /\
      Forall (fun code => occurrences "," code = 0%nat) (JS.split "," codes) /\
      input =
        "{" +:+ JS.quoted "name" +:+ ":" +:+ JS.quote fullName +:+ "," +:+
        JS.quoted "languageCodesSet" +:+ ":{" +:+
        JS.quoted "languageCodes" +:+ ":[" +:+
        String.concat "," (JS.quote <$> JS.split "," codes) +:+ "]}," +:+
        JS.quoted "inputConfig" +:+ ":{" +:+ JS.quoted "gcsSource" +:+ ":{" +:+
        JS.quoted "inputUri" +:+ ":" +:+ JS.quote path +:+ "}}}") /\
  (forall first second,
      inputsRaw = [first; second] ->
      input =
        "{" +:+ JS.quoted "name" +:+ ":" +:+ JS.quote fullName +:+ "," +:+
        JS.quoted "languagePair" +:+ ":{" +:+
        JS.quoted "sourceLanguageCode" +:+ ":" +:+ JS.quote first +:+ "," +:+
        JS.quoted "targetLanguageCode" +:+ ":" +:+ JS.quote second +:+ "}," +:+
        JS.quoted "inputConfig" +:+ ":{" +:+ JS.quoted "gcsSource" +:+ ":{" +:+
        JS.quoted "inputUri" +:+ ":" +:+ JS.quote path +:+ "}}}") /\
  (forall s, JS.unquote (JS.quote s) = Some s) /\
  (forall s, Forall JS.plain (list_ascii_of_string s) ->
             JS.quote s = JS.quoted s) /\
  JS.quote (String "034" (String "092" (String "010" (String "031" "a")))) =
    JS.dquote +:+ JS.backslash +:+ JS.dquote +:+ JS.backslash +:+
    JS.backslash +:+ JS.backslash +:+ "n" +:+ JS.backslash +:+ "u001f" +:+
    "a" +:+ JS.dquote /\
  JS.stringify
    (codesSetRequest Sample.fullName Sample.filePath (JS.split "," "en,fr,de")) =
    "{" +:+ JS.quoted "name" +:+ ":" +:+
    JS.quoted "projects/p/locations/us-central1/glossaries/g" +:+ "," +:+
    JS.quoted "languageCodesSet" +:+ ":{" +:+ JS.quoted "languageCodes" +:+
    ":[" +:+ JS.quoted "en" +:+ "," +:+ JS.quoted "fr" +:+ "," +:+
    JS.quoted "de" +:+ "]}," +:+
    JS.quoted "inputConfig" +:+ ":{" +:+ JS.quoted "gcsSource" +:+ ":{" +:+
    JS.quoted "inputUri" +:+ ":" +:+ JS.quoted "gs://b/f.csv" +:+ "}}}".
Proof.
  intros Hc. split; [reflexivity |]. split.
  { destruct (handler_create_phase _ _ _ _ Hc) as (pre & -> & Hsteps & _).
    destruct (handler_create_steps w ri input) as (rest & Hrest).
    exists rest. by rewrite trace_prefixed, steps_app, Hsteps, Hrest. }
  destruct Hc as ((Hlen & Hreq) & _ & Hin).
  pose proof (getRequiredInputs_values _ _ Hreq) as Hri.
  split.
  { destruct (inputOf_cases _ _ _ Hlen Hin)
      as [(codes & -> & ->) | (first & second & -> & ->)];
      eexists; (split; [reflexivity |]); rewrite Hri; cbn;
      repeat split; try (intros; simplify_eq; by eauto). }
  intros fullName path.
  split.
  { intros codes ->.
    split; [apply split_nonempty |]. split; [apply split_join |].
    split; [apply split_pieces |].
    destruct (inputOf_cases _ _ _ Hlen Hin)
      as [(codes' & [= <-] & ->) | (first & second & [=] & _)].
    cbv zeta. rewrite codesSet_text, Hri. reflexivity. }
  split.
  { intros first second ->.
    destruct (inputOf_cases _ _ _ Hlen Hin)
      as [(codes' & [=] & _) | (first' & second' & [= <- <-] & ->)].
    cbv zeta. rewrite onePair_text, Hri. reflexivity. }
  split; [apply unquote_quote |]. split; [apply quote_plain |].
  split; reflexivity.
Qed.

(** The body for the codes "en,fr,de", as an object and as text. *)
Lemma C8_witness :
  (exists request,
    createBodies (trace (handler (Sample.setWorld RUNNING) ["en,fr,de"])) =
      [JS.stringify request] /\
    JS.get "name" request =
      Some (JS.JStr "projects/p/locations/us-central1/glossaries/g") /\
    inputUri request = Some (JS.JStr "gs://b/f.csv") /\
    JS.get "languageCodesSet" request =
      Some (JS.JObj [("languageCodes",
                      JS.JArr [JS.JStr "en"; JS.JStr "fr"; JS.JStr "de"])]) /\
    JS.get "languagePair" request = None) /\
  createBodies (trace (handler (Sample.setWorld RUNNING) ["en,fr,de"])) =
    ["{" +:+ JS.quoted "name" +:+ ":" +:+
     JS.quoted "projects/p/locations/us-central1/glossaries/g" +:+ "," +:+
     JS.quoted "languageCodesSet" +:+ ":{" +:+ JS.quoted "languageCodes" +:+
     ":[" +:+ JS.quoted "en" +:+ "," +:+ JS.quoted "fr" +:+ "," +:+
     JS.quoted "de" +:+ "]}," +:+
     JS.quoted "inputConfig" +:+ ":{" +:+ JS.quoted "gcsSource" +:+ ":{" +:+
     JS.quoted "inputUri" +:+ ":" +:+ JS.quoted "gs://b/f.csv" +:+ "}}}"] /\
  String.concat "," (JS.split "," "en,fr,de") = "en,fr,de".
Proof.
  assert (Hc : reaches_create (Sample.setWorld RUNNING) ["en,fr,de"] Sample.ri
                 (JS.stringify
                    (codesSetRequest Sample.fullName Sample.filePath
                       ["en"; "fr"; "de"]))) by sample_path.
  destruct (C8_request_body_of_each_mode _ _ _ _ Hc)
    as (_ & _ & (request & Hbody & Hname & Huri & Hset & _) & Htext & _).
  split.
  - exists request. rewrite <- Hbody.
    split; [reflexivity |]. split; [exact Hname |]. split; [exact Huri |].
    exact (Hset _ eq_refl).
  - destruct (Htext _ eq_refl) as (_ & Hjoin & _ & Hinput).
    split; [| exact Hjoin].
    exact (f_equal (fun body => [body]) Hinput).
Defined.

(** ** No language input *)

Lemma handler_no_input_not_Ok (w : World) (message : GoogleResponse.t) :
  outcome (handler w []) <> Ok message.
Proof.
  unfold handler. cbn [List.length Nat.ltb Nat.leb]. cbv zeta. intros H.
  apply outcome_bind_Ok in H as (ri & _ & H).
  apply outcome_bind_Ok in H as (? & _ & H).
  apply outcome_bind_Ok in H as (? & _ & H).
  apply outcome_bind_Ok in H as (? & H & _).
  discriminate H.
Qed.

Lemma handler_no_input_reads (w : World) :
  exists rest, trace (handler w []) = GetInput "access-token" :: rest.
Proof.
  unfold handler. cbn [List.length Nat.ltb Nat.leb]. cbv zeta.
  unfold getRequiredInputs. rewrite getInput_optional, bind_Ok.
  rewrite trace_bind, trace_prefixed. by eexists.
Qed.

(** C9.  With no language input [handler] is past the guard on the number
    of inputs (it goes on to read the mandatory inputs) and selects codes-set
    mode.  When the mandatory inputs are there and the delete call passes,
    the run ends after the delete call, on the TypeError of calling [split]
    on the missing first input.  In no world does [handler] return without
    a language input. *)
Theorem C9_no_language_input_ends_in_type_error
    (w : World) (ri : RequiredInputs.t) :
  reaches_delete w [] ri ->
  delete_passes w ri ->
  typeOf [] = codesSet /\
  outcome (handler w []) =
    Throw (TypeError "Cannot read properties of undefined (reading 'split')") /\
  steps (trace (handler w [])) = [Call (deleteReq ri)] /\
  (forall w', exists rest,
      trace (handler w' []) = GetInput "access-token" :: rest) /\
  (forall w' message, outcome (handler w' []) <> Ok message).
Proof.
  intros Hd Hp. split; [reflexivity |].
  destruct (deleteGlossary_passes _ _ Hp) as (tr & Hdel & Hsteps & _).
  rewrite (handler_delete_phase _ _ _ Hd), Hdel, bind_Ok.
  change (inputOf [] ri)
    with (@throw string
            (TypeError "Cannot read properties of undefined (reading 'split')")).
  unfold throw. rewrite bind_Throw, !prefixed_pair.
  split; [reflexivity |]. split.
  - unfold trace. cbn [fst]. rewrite !steps_app, Hsteps. reflexivity.
  - split; [apply handler_no_input_reads | apply handler_no_input_not_Ok].
Qed.

(** Called with no language input where everything else is in order,
    [handler] deletes the glossary and then fails. *)
Lemma C9_witness :
  outcome (handler (Sample.setWorld RUNNING) []) =
    Throw (TypeError "Cannot read properties of undefined (reading 'split')") /\
  steps (trace (handler (Sample.setWorld RUNNING) [])) =
    [Call (deleteReq Sample.ri)].
Proof.
  assert (Hd : reaches_delete (Sample.setWorld RUNNING) [] Sample.ri)
    by sample_path.
  assert (Hp : delete_passes (Sample.setWorld RUNNING) Sample.ri)
    by sample_path.
  destruct (C9_no_language_input_ends_in_type_error _ _ Hd Hp)
    as (_ & Hout & Hsteps & _).
  split; [exact Hout | exact Hsteps].
Defined.

(** * Further properties of the code *)

(** ** Each operation makes its one call *)

Lemma deleteGlossary_steps (w : World) (projectId glossaryName accessToken : string) :
  steps (trace (deleteGlossary w projectId glossaryName accessToken)) =
  [Call (deleteRequest projectId glossaryName accessToken)].
Proof.
  unfold deleteGlossary. cbv zeta.
  destruct (remote w (deleteRequest projectId glossaryName accessToken))
    as [e | rd] eqn:Hr.
  - by rewrite (fetch_reject _ _ _ Hr).
  - rewrite (fetch_answer _ _ _ Hr), bind_Ok.
    destruct (Response.status rd =? 404), (Response.status rd >=? 300);
      reflexivity.
Qed.

(** X5.  No retry: each of the three operations issues exactly one request,
    whatever the service answers and also when [fetch] rejects. *)
Theorem operations_call_once
    (w : World) (input projectId glossaryName accessToken name : string) :
  steps (trace (deleteGlossary w projectId glossaryName accessToken)) =
    [Call (deleteRequest projectId glossaryName accessToken)] /\
  steps (trace (createGlossary w input projectId accessToken)) =
    [Call (createRequest input projectId accessToken)] /\
  steps (trace (headOperation w name accessToken)) =
    [Call (headRequest name accessToken)].
Proof.
  split; [apply deleteGlossary_steps |].
  split; [apply createGlossary_steps | apply headOperation_steps].
Qed.

(** ** What an operation's success says about the answer *)

Section Inversion.
Context (w : World).

Lemma fetch_Ok_inv (req : Request.t) (resp : Response.t) :
  outcome (fetch w req) = Ok resp -> remote w req = inr resp.
Proof.
  unfold fetch, emit. rewrite bind_Ok, outcome_prefixed.
  destruct (remote w req); [discriminate | by intros [= ->]].
Qed.

Lemma deleteGlossary_Ok_inv (projectId glossaryName accessToken : string) :
  outcome (deleteGlossary w projectId glossaryName accessToken) = Ok tt ->
  exists rd,
    remote w (deleteRequest projectId glossaryName accessToken) = inr rd /\
    (Response.status rd = 404 \/ Response.status rd < 300).
Proof.
  unfold deleteGlossary. cbv zeta.
  destruct (remote w (deleteRequest projectId glossaryName accessToken))
    as [e | rd] eqn:Hr.
  - by rewrite (fetch_reject _ _ _ Hr).
  - rewrite (fetch_answer _ _ _ Hr), bind_Ok, outcome_prefixed.
    intros H. exists rd. split; [done |].
    destruct (Z.eqb_spec (Response.status rd) 404); [by left |].
    destruct (Z.geb_spec (Response.status rd) 300); [discriminate H | by right].
Qed.

Lemma createGlossary_Ok_inv (input projectId accessToken : string)
    (name : option string) :
  outcome (createGlossary w input projectId accessToken) = Ok name ->
  exists rc m,
    remote w (createRequest input projectId accessToken) = inr rc /\
    Response.status rc < 300 /\
    Response.json rc = Some m /\
    GoogleResponse.name m = name.
Proof.
  unfold createGlossary, json_of. cbv zeta.
  destruct (remote w (createRequest input projectId accessToken))
    as [e | rc] eqn:Hr.
  - by rewrite (fetch_reject _ _ _ Hr).
  - rewrite (fetch_answer _ _ _ Hr), bind_Ok, outcome_prefixed.
    destruct (Z.geb_spec (Response.status rc) 300); [discriminate |].
    destruct (Response.json rc) as [m |] eqn:Hj; [| discriminate].
    intros [= <-]. by exists rc, m.
Qed.

Lemma headOperation_Ok_inv (name accessToken : string)
    (message : GoogleResponse.t) :
  outcome (headOperation w name accessToken) = Ok message ->
  exists rh,
    remote w (headRequest name accessToken) = inr rh /\
    Response.status rh < 300 /\
    Response.json rh = Some message.
Proof.
  unfold headOperation, json_of. cbv zeta.
  destruct (remote w (headRequest name accessToken)) as [e | rh] eqn:Hr.
  - by rewrite (fetch_reject _ _ _ Hr).
  - rewrite (fetch_answer _ _ _ Hr), bind_Ok, outcome_prefixed.
    destruct (Z.geb_spec (Response.status rh) 300).
    + by destruct (Response.json rh).
    + destruct (Response.json rh) as [m |] eqn:Hj; [| discriminate].
      intros [= <-]. by exists rh.
Qed.

Lemma handler_check_Ok_inv (message result : GoogleResponse.t) :
  outcome (handler_check message) = Ok result ->
  result = message /\
  exists md, GoogleResponse.metadata message = Some md /\
             MetaData.state md <> FAILED.
Proof.
  unfold handler_check.
  destruct (GoogleResponse.metadata message) as [md |]; [| discriminate].
  destruct (JS.same (MetaData.state md) FAILED) eqn:Hst; [discriminate |].
  intros [= <-]. split; [done |]. exists md. split; [done |].
  intros Heq. by rewrite Heq in Hst.
Qed.
End Inversion.

(** ** The shape of every run of the coordinator *)

Lemma getRequiredInputs_steps (w : World) :
  steps (trace (getRequiredInputs w)) = [].
Proof.
  unfold getRequiredInputs.
  rewrite getInput_optional, !getInput_required, bind_Ok. cbv beta.
  repeat (destruct (String.eqb _ _);
          [rewrite ?bind_Ok, ?bind_Throw; cbv beta; rewrite ?bind_Throw;
           reflexivity |]; rewrite bind_Ok; cbv beta).
  reflexivity.
Qed.

(** The steps from the create call on. *)
Lemma handler_create_steps_exact (w : World) (ri : RequiredInputs.t)
    (input : string) :
  steps (trace (handler_create w ri input)) =
  Call (createReq ri input) ::
  match outcome (createGlossary w input (RequiredInputs.projectId ri)
                   (RequiredInputs.accessToken ri)) with
  | Ok (Some (String c name)) =>
      (if waitTimeOf w =? 0 then [] else [Pause (waitTimeOf w * 1000)]) ++
      [Call (headReq ri (String c name))]
  | _ => []
  end.
Proof.
  unfold handler_create, core.info, emit.
  rewrite bind_Ok, trace_prefixed, trace_bind, !steps_app,
    createGlossary_steps.
  destruct (outcome (createGlossary _ _ _ _)) as [[[| c name] |] | e];
    try reflexivity.
  rewrite handler_inspect_phase, trace_prefixed, steps_app, inspect_steps.
  destruct (waitTimeOf w =? 0); reflexivity.
Qed.

(** The steps of any run with at most two language inputs and the mandatory
    inputs supplied. *)
Lemma handler_steps_exact (w : World) (inputsRaw : list string)
    (ri : RequiredInputs.t) :
  reaches_delete w inputsRaw ri ->
  steps (trace (handler w inputsRaw)) =
  Call (deleteReq ri) ::
  match outcome (deleteGlossary w (RequiredInputs.projectId ri)
                   (RequiredInputs.glossaryName ri)
                   (RequiredInputs.accessToken ri)),
        outcome (inputOf inputsRaw ri) with
  | Ok _, Ok input => steps (trace (handler_create w ri input))
  | _, _ => []
  end.
Proof.
  intros Hd. rewrite (handler_delete_phase _ _ _ Hd). cbv zeta.
  rewrite trace_prefixed, steps_app, trace_bind, !steps_app,
    deleteGlossary_steps.
  destruct (outcome (deleteGlossary _ _ _ _)) as [[] | e]; [| reflexivity].
  rewrite trace_bind, inputOf_silent.
  destruct (outcome (inputOf inputsRaw ri)); reflexivity.
Qed.

(** Either [handler] makes no call at all, or the mandatory inputs were
    read and its steps are an initial part of the complete run for them. *)
Lemma handler_steps_cases (w : World) (inputsRaw : list string) :
  steps (trace (handler w inputsRaw)) = [] \/
  exists ri input name,
    outcome (getRequiredInputs w) = Ok ri /\
    steps (trace (handler w inputsRaw)) `prefix_of` fullRun w ri input name.
Proof.
  destruct (Nat.ltb_spec 2 (List.length inputsRaw)) as [Hlen | Hlen].
  { left. by rewrite (handler_too_many _ _ Hlen). }
  destruct (outcome (getRequiredInputs w)) as [ri | e] eqn:Hreq.
  - right. exists ri.
    assert (Hd : reaches_delete w inputsRaw ri) by (split; [lia | done]).
    rewrite (handler_steps_exact _ _ _ Hd). unfold fullRun.
    destruct (outcome (deleteGlossary _ _ _ _)) as [[] | e];
      [| exists "", ""; split; [done | by eexists]].
    destruct (outcome (inputOf inputsRaw ri)) as [input | e];
      [| exists "", ""; split; [done | by eexists]].
    exists input. rewrite handler_create_steps_exact.
    destruct (outcome (createGlossary _ _ _ _)) as [[[| c name] |] | e];
      try (exists ""; split; [done | by eexists]).
    exists (String c name). split; [done |]. exists []. by rewrite app_nil_r.
  - left. unfold handler.
    replace (2 <? List.length inputsRaw)%nat with false
      by (symmetry; apply Nat.ltb_ge; lia).
    by rewrite trace_bind, Hreq, app_nil_r, getRequiredInputs_steps.
Qed.

(** X1.  In every world and for every list of language inputs, the network calls
    and pauses of [handler] are an initial part of one complete run: the
    delete call, the create call, one pause when the wait time is not 0, the
    inspect call.  No call is repeated and nothing follows the inspect
    call. *)
Theorem handler_steps_prefix_of_full_run (w : World) (inputsRaw : list string) :
  exists ri input name,
    steps (trace (handler w inputsRaw)) `prefix_of` fullRun w ri input name.
Proof.
  destruct (handler_steps_cases w inputsRaw) as [-> | (ri & input & name & _ & H)].
  - exists {| RequiredInputs.accessToken := "";
              RequiredInputs.bucketName := "";
              RequiredInputs.glossaryName := "";
              RequiredInputs.glossaryFileName := "";
              RequiredInputs.projectId := "" |}, "", "".
    apply prefix_nil.
  - by exists ri, input, name.
Qed.

(** [handler] returns a snapshot only along the one complete path. *)
Lemma handler_Ok_inv (w : World) (inputsRaw : list string)
    (message : GoogleResponse.t) :
  outcome (handler w inputsRaw) = Ok message ->
  exists ri input name,
    reaches_inspect w inputsRaw ri input name /\
    inspect_returns w ri name message /\
    exists md, GoogleResponse.metadata message = Some md /\
               MetaData.state md <> FAILED.
Proof.
  unfold handler.
  destruct (Nat.ltb_spec 2 (List.length inputsRaw)) as [Hlen | Hlen];
    [discriminate |].
  cbv zeta. intros H.
  apply outcome_bind_Ok in H as (ri & Hreq & H).
  apply outcome_bind_Ok in H as (? & _ & H).
  apply outcome_bind_Ok in H as ([] & Hdel & H).
  apply outcome_bind_Ok in H as (input & Hin & H).
  apply outcome_bind_Ok in H as (? & _ & H).
  apply outcome_bind_Ok in H as (name & Hcreate & H).
  destruct name as [[| c name] |]; [discriminate H | | discriminate H].
  apply outcome_bind_Ok in H as (? & _ & H).
  apply outcome_bind_Ok in H as (? & _ & H).
  apply outcome_bind_Ok in H as (? & _ & H).
  apply outcome_bind_Ok in H as (snapshot & Hhead & H).
  apply (handler_check_Ok_inv snapshot message) in H as (-> & Hmd).
  exists ri, input, (String c name). repeat split; try done.
  - by apply deleteGlossary_Ok_inv.
  - by apply createGlossary_Ok_inv.
  - by apply headOperation_Ok_inv.
Qed.

(** X2.  When [handler] returns, it has made exactly the delete call, the create
    call and the inspect call, in this order, with the one pause in between
    when the wait time is not 0; the snapshot it returns is the one the
    inspect call decoded, has its [metadata], and its state is not the
    string FAILED (it is any other string, or missing); nothing was logged
    at error level. *)
Theorem handler_success_is_one_full_run
    (w : World) (inputsRaw : list string) (message : GoogleResponse.t) :
  outcome (handler w inputsRaw) = Ok message ->
  exists ri input name,
    steps (trace (handler w inputsRaw)) = fullRun w ri input name /\
    outcome (headOperation w name (RequiredInputs.accessToken ri)) =
      Ok message /\
    (exists md, GoogleResponse.metadata message = Some md /\
                MetaData.state md <> FAILED) /\
    errors (trace (handler w inputsRaw)) = [].
Proof.
  intros H.
  destruct (handler_Ok_inv _ _ _ H)
    as (ri & input & name & Hpath & Hsnap & md & Hmd & Hst).
  exists ri, input, name. split; [by apply handler_steps |].
  split.
  { destruct Hsnap as (rh & Hr & Hs & Hj). unfold headReq in Hr.
    by rewrite (headOperation_returns _ _ _ _ _ Hr Hs Hj). }
  split; [by exists md |].
  destruct (handler_verdict _ _ _ _ _ _ Hpath Hsnap) as (pre & -> & He).
  rewrite trace_prefixed, errors_app, He. unfold handler_check.
  by rewrite Hmd, (same_false _ _ Hst).
Qed.

(** A snapshot in state CANCELLED is returned like any other that is not
    FAILED. *)
Lemma handler_success_witness :
  exists ri input name,
    steps (trace (handler (Sample.pairWorld (Some "CANCELLED")) ["en"; "fr"])) =
      fullRun (Sample.pairWorld (Some "CANCELLED")) ri input name.
Proof.
  assert (H : outcome (handler (Sample.pairWorld (Some "CANCELLED"))
                         ["en"; "fr"]) =
              Ok (Sample.operation (Some "operations/op1")
                    (Some (Some "CANCELLED")) None))
    by reflexivity.
  destruct (handler_success_is_one_full_run _ _ _ H)
    as (ri & input & name & Hsteps & _).
  by exists ri, input, name.
Defined.

(** ** The pause is bounded *)

Lemma waitTimeOf_le (w : World) : waitTimeOf w <= 300.
Proof.
  unfold waitTimeOf.
  pose proof (resolveWaitTime_cases (inputValue w "wait-time")) as H.
  destruct (JS.parseInt _); [destruct H as [[_ ->] | [? ->]] | rewrite H]; lia.
Qed.

Lemma fullRun_pause (w : World) (ri : RequiredInputs.t) (input name : string)
    (ms : Z) :
  Pause ms ∈ fullRun w ri input name ->
  ms = waitTimeOf w * 1000 /\ waitTimeOf w <> 0.
Proof.
  unfold fullRun. destruct (Z.eqb_spec (waitTimeOf w) 0) as [Hz | Hz]; cbn.
  - rewrite !elem_of_cons, elem_of_nil. intros [? | [? | [? | []]]]; discriminate.
  - rewrite !elem_of_cons, elem_of_nil.
    intros [? | [? | [[= ->] | [? | []]]]]; done || discriminate.
Qed.

(** X3.  Whatever the [wait-time] input and whatever the service answers, a
    pause of [handler] lasts waitTime * 1000 milliseconds, is never of zero
    length and never longer than 300000 milliseconds; and there is at most
    one pause in a run. *)
Theorem handler_pause_at_most_300_seconds
    (w : World) (inputsRaw : list string) :
  (forall ms,
      Pause ms ∈ steps (trace (handler w inputsRaw)) ->
      ms = waitTimeOf w * 1000 /\ ms <> 0 /\ ms <= 300000) /\
  (List.length (waits (steps (trace (handler w inputsRaw)))) <= 1)%nat.
Proof.
  assert (Hfull : exists ri input name,
             steps (trace (handler w inputsRaw)) `prefix_of`
             fullRun w ri input name).
  { destruct (handler_steps_cases w inputsRaw)
      as [-> | (ri & input & name & _ & H)].
    - exists (requiredOf w), "", "". apply prefix_nil.
    - by exists ri, input, name. }
  destruct Hfull as (ri & input & name & Hpre).
  split.
  - intros ms Hin.
    destruct (fullRun_pause w ri input name ms) as [-> Hnz];
      [by apply (elem_of_prefix _ _ _ Hin) |].
    pose proof (waitTimeOf_le w). repeat split; lia.
  - destruct Hpre as [k Hk].
    assert (Hw : (List.length (waits (fullRun w ri input name)) <= 1)%nat).
    { unfold fullRun. destruct (waitTimeOf w =? 0); cbn; lia. }
    rewrite Hk in Hw. revert Hw.
    generalize (steps (trace (handler w inputsRaw))) as l.
    induction l as [| [req | ms] l IH]; cbn; try lia; auto.
    clear IH. intros H. assert (waits (l ++ k) = []) as Hnil.
    { destruct (waits (l ++ k)); [done | cbn in H; lia]. }
    clear H. induction l as [| [req | ms'] l IH]; cbn in *; try done; auto.
Qed.

(** ** Where the credential goes *)

Lemma string_prefix_app (s t : string) : String.prefix s (s +:+ t) = true.
Proof.
  induction s as [| c s IH]; simpl; [by destruct t |].
  destruct (ascii_dec c c); [exact IH | congruence].
Qed.

Lemma fullRun_request (w : World) (ri : RequiredInputs.t) (input name : string)
    (req : Request.t) :
  Call req ∈ fullRun w ri input name ->
  req = deleteReq ri \/ req = createReq ri input \/ req = headReq ri name.
Proof.
  unfold fullRun. rewrite !elem_of_app, !elem_of_cons, elem_of_nil.
  intros [[[= ->] | [[= ->] | []]] | [H | [[= ->] | []]]]; auto.
  destruct (waitTimeOf w =? 0); [by apply elem_of_nil in H |].
  rewrite elem_of_cons, elem_of_nil in H. by destruct H as [[=] | []].
Qed.

(** X4.  Every request [handler] sends, in any world, goes to a URL under the
    fixed API base and carries the header Authorization: Bearer followed by
    the (trimmed) [access-token] input; a request has a body exactly when it
    is the POST of the create call. *)
Theorem handler_requests_carry_the_token
    (w : World) (inputsRaw : list string) (req : Request.t) :
  Call req ∈ steps (trace (handler w inputsRaw)) ->
  ("Authorization", "Bearer " +:+ inputValue w "access-token")
    ∈ Request.headers req /\
  String.prefix "https://translation.googleapis.com/v3/" (Request.url req) = true /\
  (is_Some (Request.body req) <-> Request.method req = "POST").
Proof.
  intros Hin.
  destruct (handler_steps_cases w inputsRaw)
    as [Hnil | (ri & input & name & Hreq & Hpre)].
  { rewrite Hnil in Hin. by apply elem_of_nil in Hin. }
  pose proof (getRequiredInputs_values _ _ Hreq) as Hri.
  assert (Htok : RequiredInputs.accessToken ri = inputValue w "access-token")
    by (by rewrite Hri).
  apply (elem_of_prefix _ _ _ Hin), fullRun_request in Hpre.
  destruct Hpre as [-> | [-> | ->]]; cbn; rewrite Htok;
    (split; [apply elem_of_cons; by left |]);
    (split; [apply (string_prefix_app apiBase) |]);
    split; intros H;
    first [ reflexivity | discriminate H | by apply is_Some_None in H
          | by eexists ].
Qed.

Lemma handler_requests_witness :
  ("Authorization", "Bearer tok")
    ∈ Request.headers (createReq Sample.ri
                         (JS.stringify
                            (onePairRequest Sample.fullName Sample.filePath
                               ["en"; "fr"]))).
Proof.
  refine (proj1 (handler_requests_carry_the_token
                   (Sample.pairWorld RUNNING) ["en"; "fr"] _ _)).
  apply (list_elem_of_lookup_2 _ 1%nat). reflexivity.
Defined.

(** ** The mandatory inputs *)

Lemma getRequiredInputs_spec (w : World) :
  getRequiredInputs w =
  (GetInput <$>
     "access-token" ::
     upTo (fun name => String.eqb (default "" (inputs w !! name)) "")
       mandatoryNames,
   match firstMissing w with
   | Some name => Throw (Error ("Input required and not supplied: " +:+ name))
   | None => Ok (requiredOf w)
   end).
Proof.
  unfold getRequiredInputs, firstMissing, mandatoryNames.
  cbn [List.find upTo].
  rewrite getInput_optional, !getInput_required.
  destruct (String.eqb (default "" (inputs w !! "bucket-name")) "");
    [reflexivity |].
  destruct (String.eqb (default "" (inputs w !! "glossary-name")) "");
    [reflexivity |].
  destruct (String.eqb (default "" (inputs w !! "glossary-file-name")) "");
    [reflexivity |].
  destruct (String.eqb (default "" (inputs w !! "project-id")) "");
    reflexivity.
Qed.

(** X7.  [getRequiredInputs] reads the access token, then the four mandatory
    inputs in order, and stops at the first one that is not supplied, with
    an error that names it; when none is missing it returns the trimmed
    values.  The access token is not mandatory: when it is not supplied, its
    value is the empty string. *)
Theorem getRequiredInputs_stops_at_first_missing (w : World) :
  getRequiredInputs w =
  (GetInput <$>
     "access-token" ::
     upTo (fun name => String.eqb (default "" (inputs w !! name)) "")
       mandatoryNames,
   match firstMissing w with
   | Some name => Throw (Error ("Input required and not supplied: " +:+ name))
   | None => Ok (requiredOf w)
   end) /\
  (inputs w !! "access-token" = None ->
   RequiredInputs.accessToken (requiredOf w) = "").
Proof.
  split; [apply getRequiredInputs_spec |].
  unfold requiredOf, inputValue. cbn. by intros ->.
Qed.

(** X8.  When a mandatory input is missing, [handler] fails with the error that
    names the first missing one, before any network call and without an
    error-level log line. *)
Theorem handler_missing_mandatory_input
    (w : World) (inputsRaw : list string) (name : string) :
  (List.length inputsRaw <= 2)%nat ->
  firstMissing w = Some name ->
  outcome (handler w inputsRaw) =
    Throw (Error ("Input required and not supplied: " +:+ name)) /\
  steps (trace (handler w inputsRaw)) = [] /\
  errors (trace (handler w inputsRaw)) = [] /\
  "wait-time" ∉ reads (trace (handler w inputsRaw)).
Proof.
  intros Hlen Hmiss. unfold handler.
  replace (2 <? List.length inputsRaw)%nat with false
    by (symmetry; apply Nat.ltb_ge; lia).
  rewrite getRequiredInputs_spec, Hmiss, bind_Throw. unfold outcome, trace. cbn [fst snd].
  split; [done |]. unfold mandatoryNames. cbn [upTo].
  repeat destruct (String.eqb _ _); cbn;
    (split; [done |]); (split; [done |]);
    rewrite ?not_elem_of_cons; repeat split; try discriminate;
    apply not_elem_of_nil.
Qed.

Lemma handler_missing_mandatory_input_witness :
  outcome (handler (withoutInput "glossary-name" (Sample.pairWorld RUNNING))
             ["en"; "fr"]) =
    Throw (Error "Input required and not supplied: glossary-name") /\
  steps (trace (handler (withoutInput "glossary-name" (Sample.pairWorld RUNNING))
                  ["en"; "fr"])) = [].
Proof.
  assert (Hlen : (List.length ["en"; "fr"] <= 2)%nat) by (cbn; lia).
  assert (Hmiss : firstMissing
                    (withoutInput "glossary-name" (Sample.pairWorld RUNNING)) =
                  Some "glossary-name") by reflexivity.
  destruct (handler_missing_mandatory_input _ _ _ Hlen Hmiss)
    as (Hout & Hsteps & _).
  split; [exact Hout | exact Hsteps].
Defined.

(** ** Failures below the status checks *)

Section Transport.
Context (w : World) (inputsRaw : list string) (ri : RequiredInputs.t).

Lemma handler_delete_rejected (e : exn) :
  reaches_delete w inputsRaw ri ->
  remote w (deleteReq ri) = inl e ->
  outcome (handler w inputsRaw) = Throw e /\
  steps (trace (handler w inputsRaw)) = [Call (deleteReq ri)] /\
  errors (trace (handler w inputsRaw)) = [].
Proof.
  intros Hd Hr. rewrite (handler_delete_phase _ _ _ Hd). cbv zeta.
  unfold deleteGlossary. cbv zeta. unfold deleteReq in Hr.
  rewrite (fetch_reject _ _ _ Hr), !bind_Throw, prefixed_pair.
  unfold outcome, trace. cbn [fst snd].
  by rewrite !steps_app, !errors_app.
Qed.

Lemma handler_create_rejected (input : string) (e : exn) :
  reaches_create w inputsRaw ri input ->
  remote w (createReq ri input) = inl e ->
  outcome (handler w inputsRaw) = Throw e /\
  steps (trace (handler w inputsRaw)) =
    [Call (deleteReq ri); Call (createReq ri input)] /\
  errors (trace (handler w inputsRaw)) = [].
Proof.
  intros Hc Hr.
  destruct (handler_create_phase _ _ _ _ Hc) as (pre & -> & Hs & _ & He).
  unfold handler_create, createGlossary. cbv zeta. unfold createReq in Hr.
  rewrite (fetch_reject _ _ _ Hr), bind_Throw.
  unfold core.info, emit. rewrite bind_Ok, bind_Throw, !prefixed_pair.
  unfold outcome, trace. cbn [fst snd].
  by rewrite !steps_app, !errors_app, Hs, He.
Qed.

Lemma handler_inspect_rejected (input name : string) (e : exn) :
  reaches_inspect w inputsRaw ri input name ->
  remote w (headReq ri name) = inl e ->
  outcome (handler w inputsRaw) = Throw e /\
  steps (trace (handler w inputsRaw)) = fullRun w ri input name /\
  errors (trace (handler w inputsRaw)) = [].
Proof.
  intros Hi Hr. split; [| split; [by apply handler_steps |]].
  - destruct (handler_inspect_reached _ _ _ _ _ Hi) as (pre & -> & _).
    unfold headOperation. cbv zeta. unfold headReq in Hr.
    by rewrite (fetch_reject _ _ _ Hr), !bind_Throw.
  - destruct (handler_inspect_reached _ _ _ _ _ Hi) as (pre & -> & _ & _ & He).
    unfold headOperation. cbv zeta. unfold headReq in Hr.
    rewrite (fetch_reject _ _ _ Hr), !bind_Throw, prefixed_pair.
    unfold trace. cbn [fst]. by rewrite errors_app, He.
Qed.
End Transport.

(** X9.  When [fetch] itself rejects (no response at all), on whichever of the
    three calls, [handler] ends with exactly that error, makes no further
    call, and logs nothing at error level. *)
Theorem handler_passes_on_transport_failure
    (w : World) (inputsRaw : list string) (ri : RequiredInputs.t) (e : exn) :
  (reaches_delete w inputsRaw ri ->
   remote w (deleteReq ri) = inl e ->
   outcome (handler w inputsRaw) = Throw e /\
   steps (trace (handler w inputsRaw)) = [Call (deleteReq ri)] /\
   errors (trace (handler w inputsRaw)) = []) /\
  (forall input,
     reaches_create w inputsRaw ri input ->
     remote w (createReq ri input) = inl e ->
     outcome (handler w inputsRaw) = Throw e /\
     steps (trace (handler w inputsRaw)) =
       [Call (deleteReq ri); Call (createReq ri input)] /\
     errors (trace (handler w inputsRaw)) = []) /\
  (forall input name,
     reaches_inspect w inputsRaw ri input name ->
     remote w (headReq ri name) = inl e ->
     outcome (handler w inputsRaw) = Throw e /\
     steps (trace (handler w inputsRaw)) = fullRun w ri input name /\
     errors (trace (handler w inputsRaw)) = []).
Proof.
  split; [apply handler_delete_rejected |].
  split; [intros input; apply handler_create_rejected |].
  intros input name. apply handler_inspect_rejected.
Qed.

Lemma handler_passes_on_transport_failure_witness :
  outcome (handler Sample.offline ["en"; "fr"]) =
    Throw (FetchError "connect ECONNREFUSED") /\
  steps (trace (handler Sample.offline ["en"; "fr"])) =
    [Call (deleteReq Sample.ri)] /\
  errors (trace (handler Sample.offline ["en"; "fr"])) = [].
Proof.
  refine (proj1 (handler_passes_on_transport_failure
                   Sample.offline ["en"; "fr"] Sample.ri _) _ _).
  - sample_path.
  - reflexivity.
Defined.

(** ** Bodies that do not decode *)

(** X10.  A create call answered below 300 with a body that is not JSON makes
    [handler] fail on the rejection of [resp.json()], after the create call:
    the check of the name is not reached, nothing is logged at error level,
    and there is no inspect call. *)
Theorem handler_create_body_not_json
    (w : World) (inputsRaw : list string) (ri : RequiredInputs.t)
    (input : string) (rc : Response.t) :
  reaches_create w inputsRaw ri input ->
  remote w (createReq ri input) = inr rc ->
  Response.status rc < 300 ->
  Response.json rc = None ->
  (exists msg, outcome (handler w inputsRaw) = Throw (FetchError msg)) /\
  steps (trace (handler w inputsRaw)) =
    [Call (deleteReq ri); Call (createReq ri input)] /\
  errors (trace (handler w inputsRaw)) = [].
Proof.
  intros Hc Hr Hs Hj.
  destruct (handler_create_phase _ _ _ _ Hc) as (pre & -> & Hsteps & _ & He).
  unfold handler_create, createGlossary, json_of. cbv zeta.
  unfold createReq in Hr. rewrite (fetch_answer _ _ _ Hr).
  unfold core.info, emit. rewrite !bind_Ok. cbv beta. status_test.
  rewrite Hj. unfold throw. run_binds.
  unfold outcome, trace. cbn [fst snd].
  rewrite !steps_app, !errors_app, Hsteps, He.
  split; [by eexists | done].
Qed.

Lemma handler_create_body_not_json_witness :
  (exists msg, outcome (handler Sample.garbled ["en"; "fr"]) =
               Throw (FetchError msg)) /\
  errors (trace (handler Sample.garbled ["en"; "fr"])) = [].
Proof.
  assert (Hc : reaches_create Sample.garbled ["en"; "fr"] Sample.ri
                 (JS.stringify
                    (onePairRequest Sample.fullName Sample.filePath
                       ["en"; "fr"]))) by sample_path.
  assert (Hr : remote Sample.garbled
                 (createReq Sample.ri
                    (JS.stringify
                       (onePairRequest Sample.fullName Sample.filePath
                          ["en"; "fr"]))) =
               inr {| Response.status := 200; Response.text := "<html>";
                      Response.json := None |}) by reflexivity.
  assert (Hs : 200 < 300) by lia.
  destruct (handler_create_body_not_json _ _ _ _ _ Hc Hr Hs eq_refl)
    as (Hout & _ & He).
  split; [exact Hout | exact He].
Defined.

(** X11.  A refused inspect call (status from 300 up) whose body is not JSON fails
    on the rejection of [resp.json()], which comes before the log lines: the
    failing status is logged nowhere and the error is not the one of a
    refused call. *)
Theorem headOperation_refusal_not_json_is_not_logged
    (w : World) (name accessToken : string) (rh : Response.t) :
  remote w (headRequest name accessToken) = inr rh ->
  300 <= Response.status rh ->
  Response.json rh = None ->
  (exists msg,
      headOperation w name accessToken =
      ([Fetch (headRequest name accessToken)], Throw (FetchError msg))) /\
  errors (trace (headOperation w name accessToken)) = [] /\
  outcome (headOperation w name accessToken) <>
    Throw (Error "delete request failed").
Proof.
  intros Hr Hs Hj. unfold headOperation, json_of. cbv zeta.
  rewrite (fetch_answer _ _ _ Hr), bind_Ok. cbv beta. status_test.
  rewrite Hj. unfold throw. rewrite bind_Throw, prefixed_pair.
  split; [by eexists |]. split; [reflexivity | discriminate].
Qed.

Lemma headOperation_refusal_not_json_witness :
  errors (trace (headOperation Sample.inspectGarbled "operations/op1" "tok")) =
  [].
Proof.
  assert (Hr : remote Sample.inspectGarbled
                 (headRequest "operations/op1" "tok") =
               inr {| Response.status := 502; Response.text := "<html>";
                      Response.json := None |}) by reflexivity.
  assert (Hs : 300 <= 502) by lia.
  exact (proj1 (proj2
           (headOperation_refusal_not_json_is_not_logged _ _ _ _ Hr Hs eq_refl))).
Defined.

(** ** An empty name *)

(** X12.  A create answer whose [name] is the empty string is handled like one
    with no [name]: [!name] holds of both, and [handler] fails with the same
    error after the create call, without reading [wait-time], pausing or
    inspecting. *)
Theorem handler_empty_name_is_no_name
    (w : World) (inputsRaw : list string) (ri : RequiredInputs.t)
    (input : string) :
  reaches_create w inputsRaw ri input ->
  create_returns w ri input (Some "") ->
  outcome (handler w inputsRaw) =
    Throw (Error "failed to parse google response of name field") /\
  steps (trace (handler w inputsRaw)) =
    [Call (deleteReq ri); Call (createReq ri input)] /\
  reads (trace (handler w inputsRaw)) = requiredNames.
Proof.
  intros Hc Hr.
  destruct (handler_create_phase _ _ _ _ Hc) as (pre & -> & Hsteps & Hreads & _).
  rewrite (handler_create_unnamed _ _ _ _ Hr eq_refl), prefixed_pair.
  unfold outcome, trace. cbn [fst snd].
  by rewrite steps_app, reads_app, Hsteps, Hreads.
Qed.

Lemma handler_empty_name_witness :
  outcome (handler Sample.emptyName ["en"; "fr"]) =
    Throw (Error "failed to parse google response of name field").
Proof.
  assert (Hc : reaches_create Sample.emptyName ["en"; "fr"] Sample.ri
                 (JS.stringify
                    (onePairRequest Sample.fullName Sample.filePath
                       ["en"; "fr"]))) by sample_path.
  assert (Hr : create_returns Sample.emptyName Sample.ri
                 (JS.stringify
                    (onePairRequest Sample.fullName Sample.filePath
                       ["en"; "fr"])) (Some "")) by sample_path.
  exact (proj1 (handler_empty_name_is_no_name _ _ _ _ Hc Hr)).
Defined.

(** ** The glossary that is deleted is the glossary that is created *)





(** ** The codes, split and joined *)

(** X14.  Splitting a codes string on commas loses nothing: joining the codes
    with commas gives the string back; there is one more code than there are
    commas (so the empty string gives one empty code, and empty codes
    between commas are kept); and no code contains a comma. *)
Theorem codes_split_on_commas_round_trip (codes : string) :
  String.concat "," (JS.split "," codes) = codes /\
  List.length (JS.split "," codes) = S (occurrences "," codes) /\
  Forall (fun code => occurrences "," code = 0%nat) (JS.split "," codes).
Proof.
  split; [apply split_join |]. split; [apply split_length | apply split_pieces].
Qed.

(** ** What [main] ends with *)

Lemma announce_sets_no_output (inputsRaw : list string) :
  outputs (announce inputsRaw) = [].
Proof. by destruct inputsRaw as [| a [| b [| c l]]]. Qed.

(** X15.  [main] returns only after [handler] returned a snapshot, which then
    has its [metadata] with a state that is not the string FAILED.  The one
    output [operation-name] is set, to the name in the snapshot, exactly
    when that state is the string RUNNING; for any other state (SUCCEEDED,
    another string, or none) no output is set.  The last event is the log
    line of the state as it is ("undefined" when there is none).  When
    [main] throws, no output is set. *)
Theorem main_sets_output_only_when_running (w : World) :
  match outcome (main w) with
  | Ok _ =>
      exists inputsRaw message md,
        dispatch w = Some inputsRaw /\
        outcome (handler w inputsRaw) = Ok message /\
        GoogleResponse.metadata message = Some md /\
        MetaData.state md <> FAILED /\
        (MetaData.state md = RUNNING ->
         outputs (trace (main w)) =
           [("operation-name", GoogleResponse.name message)]) /\
        (MetaData.state md <> RUNNING -> outputs (trace (main w)) = []) /\
        last (trace (main w)) =
          Some (Info ("update is " +:+ JS.show (MetaData.state md)))
  | Throw _ => outputs (trace (main w)) = []
  end.
Proof.
  destruct (dispatch w) as [inputsRaw |] eqn:Hd;
    [| by rewrite (main_not_dispatched _ Hd)].
  destruct (outcome (handler w inputsRaw)) as [message | e] eqn:Hh.
  - destruct (handler_Ok_inv _ _ _ Hh) as (_ & _ & _ & _ & _ & md & Hmd & Hst).
    rewrite (main_reports _ _ _ Hd Hh).
    assert (Hout : outputs (announce inputsRaw ++ trace (handler w inputsRaw))
                   = []).
    { by rewrite outputs_app, announce_sets_no_output, handler_no_output. }
    revert Hout. generalize (announce inputsRaw ++ trace (handler w inputsRaw)).
    intros tr Hout. unfold main_report, stateOf. rewrite Hmd.
    cbn [fmap option_fmap option_map isRunning].
    unfold core.setOutput, core.info, emit, ret, STATE_string.
    destruct (JS.same (MetaData.state md) RUNNING) eqn:Hrun; run_binds;
      cbn [outcome snd]; exists inputsRaw, message, md;
      unfold trace; cbn [fst]; rewrite outputs_app, Hout, last_app;
      (split; [done |]); (split; [done |]); (split; [done |]);
      (split; [done |]).
    + apply same_true in Hrun. by repeat split.
    + split; [| by split]. intros Heq. rewrite Heq in Hrun. discriminate.
  - rewrite (main_dispatched _ _ Hd).
    pose proof (handler_no_output w inputsRaw) as Hno.
    destruct (handler w inputsRaw) as [tr r]. cbn in Hh, Hno. subst r.
    rewrite bind_Throw, prefixed_pair. unfold outcome, trace. cbn [fst snd].
    by rewrite outputs_app, announce_sets_no_output, Hno.
Qed.

(** ** What a run depends on *)

Lemma handler_frame (w w' : World) (inputsRaw : list string) :
  remote w = remote w' ->
  Forall (fun name => inputs w !! name = inputs w' !! name)
    (requiredNames ++ ["wait-time"]) ->
  handler w inputsRaw = handler w' inputsRaw.
Proof.
  intros Hr HF. unfold requiredNames in HF. cbn in HF.
  repeat (apply Forall_cons in HF as [? HF]).
  unfold handler, getRequiredInputs, deleteGlossary, createGlossary,
    headOperation, fetch, core.getInput.
  rewrite Hr.
  repeat match goal with
         | H : inputs w !! _ = _ |- _ => rewrite H; clear H
         end.
  reflexivity.
Qed.

(** X16.  [handler] depends on the world through the service and through six
    inputs only, the five of [getRequiredInputs] and [wait-time]: in two
    worlds that agree on these it emits the same events and ends the same
    way. *)
Theorem handler_depends_on_six_inputs
    (w w' : World) (inputsRaw : list string) :
  remote w = remote w' ->
  Forall (fun name => inputs w !! name = inputs w' !! name)
    (requiredNames ++ ["wait-time"]) ->
  handler w inputsRaw = handler w' inputsRaw.
Proof. apply handler_frame. Qed.

Lemma handler_frame_witness :
  handler (Sample.pairWorld RUNNING) ["en"; "fr"] =
  handler (Sample.setWorld RUNNING) ["en"; "fr"].
Proof.
  apply handler_depends_on_six_inputs; [reflexivity |].
  repeat (apply Forall_cons; split; [reflexivity |]). apply Forall_nil_2.
Defined.

Lemma inputValue_withoutInput (n name : string) (w : World) :
  n <> name -> inputValue (withoutInput n w) name = inputValue w name.
Proof.
  intros Hne. unfold inputValue, withoutInput. cbn [inputs].
  by rewrite lookup_delete_ne.
Qed.

Lemma handler_withoutInput (n : string) (w : World) (inputsRaw : list string) :
  n ∉ requiredNames ++ ["wait-time"] ->
  handler (withoutInput n w) inputsRaw = handler w inputsRaw.
Proof.
  intros Hn. apply handler_frame; [reflexivity |].
  apply Forall_forall. intros name Hin. unfold withoutInput. cbn [inputs].
  apply lookup_delete_ne. by intros ->.
Qed.

Ltac not_among :=
  unfold requiredNames; cbn; rewrite !not_elem_of_cons;
  repeat split; try discriminate; apply not_elem_of_nil.

(** X17.  Pair mode comes first: when the target and the source language are both
    given, the [language-codes-set] input plays no part; the run is the same
    as without it. *)
Theorem main_pair_mode_ignores_codes_set (w : World) :
  inputValue w "target-language" <> "" ->
  inputValue w "source-language" <> "" ->
  main w = main (withoutInput "language-codes-set" w).
Proof.
  intros Ht Hs. unfold main. rewrite !getInput_optional. run_binds.
  rewrite (inputValue_withoutInput "language-codes-set" "target-language"),
    (inputValue_withoutInput "language-codes-set" "source-language")
    by discriminate.
  rewrite (handler_withoutInput "language-codes-set") by not_among.
  destruct (inputValue w "target-language"); [done |].
  destruct (inputValue w "source-language"); [done |].
  reflexivity.
Qed.

Lemma main_pair_mode_witness :
  main (Sample.world (("language-codes-set", "de,it") :: Sample.pairInputs)
          Sample.absent Sample.created (Sample.observed RUNNING)) =
  main (withoutInput "language-codes-set"
          (Sample.world (("language-codes-set", "de,it") :: Sample.pairInputs)
             Sample.absent Sample.created (Sample.observed RUNNING))).
Proof.
  apply main_pair_mode_ignores_codes_set; discriminate.
Defined.

(** X18.  A language given alone is dropped without notice: when the source
    language is not given, a target language changes nothing in the run
    (codes-set mode, or the failure for want of a language input, as
    without it); and the same for a source language with no target. *)
Theorem main_ignores_a_lone_language (w : World) :
  (inputValue w "source-language" = "" ->
   main w = main (withoutInput "target-language" w)) /\
  (inputValue w "target-language" = "" ->
   main w = main (withoutInput "source-language" w)).
Proof.
  split; intros He; unfold main; rewrite !getInput_optional; run_binds.
  - rewrite (inputValue_withoutInput "target-language" "source-language"),
      (inputValue_withoutInput "target-language" "language-codes-set")
      by discriminate.
    rewrite He. cbn [String.length Nat.eqb negb]. rewrite !andb_false_r.
    by rewrite (handler_withoutInput "target-language") by not_among.
  - rewrite (inputValue_withoutInput "source-language" "target-language"),
      (inputValue_withoutInput "source-language" "language-codes-set")
      by discriminate.
    rewrite He. cbn [String.length Nat.eqb negb andb].
    by rewrite (handler_withoutInput "source-language") by not_among.
Qed.

(** X19.  With neither a language pair nor a codes set, [main] throws after
    reading the three language inputs: [handler] is not called, so the
    mandatory inputs are not read and no request is sent. *)
Theorem main_without_language_input (w : World) :
  inputValue w "target-language" = "" \/ inputValue w "source-language" = "" ->
  inputValue w "language-codes-set" = "" ->
  main w =
  ([GetInput "target-language"; GetInput "source-language";
    GetInput "language-codes-set"],
   Throw (Error "Not appropriate language code input setting")).
Proof.
  intros Hpair Hset. apply main_not_dispatched. unfold dispatch.
  rewrite Hset. destruct Hpair as [-> | ->]; cbn; by rewrite ?andb_false_r.
Qed.

Lemma main_without_language_input_witness :
  steps (trace (main Sample.noLanguage)) = [] /\
  outcome (main Sample.noLanguage) =
    Throw (Error "Not appropriate language code input setting").
Proof.
  assert (H : main Sample.noLanguage =
              ([GetInput "target-language"; GetInput "source-language";
                GetInput "language-codes-set"],
               Throw (Error "Not appropriate language code input setting"))).
  { apply main_without_language_input; [left |]; reflexivity. }
  rewrite H. split; reflexivity.
Defined.

(** X20.  More than two language inputs are refused at once: nothing is read,
    logged or sent, in any world. *)
Theorem handler_refuses_more_than_two_inputs
    (w : World) (inputsRaw : list string) :
  (2 < List.length inputsRaw)%nat ->
  handler w inputsRaw =
  ([], Throw (Error "input can not be more than 2 string object")).
Proof. apply handler_too_many. Qed.

Lemma handler_refuses_more_than_two_inputs_witness :
  handler Sample.noLanguage ["en"; "fr"; "de"] =
  ([], Throw (Error "input can not be more than 2 string object")).
Proof.
  apply handler_refuses_more_than_two_inputs. cbn. lia.
Defined.

(** ** When the operations succeed *)

(** X6.  Each operation succeeds exactly when the service answers its request
    acceptably: delete with status 404 or below 300; create with a status
    below 300 and a body that decodes, whose [name] it returns; inspect with
    a status below 300 and a body that decodes, which it returns. *)
Theorem operations_succeed_exactly_when
    (w : World) (input projectId glossaryName accessToken name : string)
    (created : option string) (message : GoogleResponse.t) :
  (outcome (deleteGlossary w projectId glossaryName accessToken) = Ok tt <->
   exists rd,
     remote w (deleteRequest projectId glossaryName accessToken) = inr rd /\
     (Response.status rd = 404 \/ Response.status rd < 300)) /\
  (outcome (createGlossary w input projectId accessToken) = Ok created <->
   exists rc m,
     remote w (createRequest input projectId accessToken) = inr rc /\
     Response.status rc < 300 /\
     Response.json rc = Some m /\
     GoogleResponse.name m = created) /\
  (outcome (headOperation w name accessToken) = Ok message <->
   exists rh,
     remote w (headRequest name accessToken) = inr rh /\
     Response.status rh < 300 /\
     Response.json rh = Some message).
Proof.
  split; [| split]; split.
  - apply deleteGlossary_Ok_inv.
  - intros (rd & Hr & [Hs | Hs]).
    + by rewrite (deleteGlossary_404 _ _ _ _ _ Hr Hs).
    + by rewrite (deleteGlossary_below_300 _ _ _ _ _ Hr Hs).
  - apply createGlossary_Ok_inv.
  - intros (rc & m & Hr & Hs & Hj & <-).
    by rewrite (createGlossary_returns _ _ _ _ _ _ Hr Hs Hj).
  - apply headOperation_Ok_inv.
  - intros (rh & Hr & Hs & Hj).
    by rewrite (headOperation_returns _ _ _ _ _ Hr Hs Hj).
Qed.

(** ** Decimal numerals as wait time *)

Lemma digit_of_pretty_N_char (k : N) :
  (k < 10)%N -> JS.digit_of 10 (pretty_N_char k) = Some (Z.of_N k).
Proof.
  intros H.
  assert (k = 0 \/ k = 1 \/ k = 2 \/ k = 3 \/ k = 4 \/ k = 5 \/ k = 6 \/
          k = 7 \/ k = 8 \/ k = 9)%N as Hk by lia.
  repeat destruct Hk as [-> | Hk]; try subst k; reflexivity.
Qed.

(** Reading the digits that [pretty] printed in front of [s]. *)
Lemma digits_pretty_N_go (x : N) :
  (0 < x)%N ->
  exists p, forall s acc,
    JS.digits 10 (pretty_N_go x s) acc =
    JS.digits 10 s (Some (default 0 acc * p + Z.of_N x)).
Proof.
  induction (N.lt_wf_0 x) as [x _ IH]. intros Hpos.
  assert (Hd : forall s acc,
             JS.digits 10 (String (pretty_N_char (x `mod` 10)) s) acc =
             JS.digits 10 s (Some (default 0 acc * 10 + Z.of_N (x `mod` 10)))).
  { intros s acc. cbn [JS.digits].
    by rewrite digit_of_pretty_N_char by (apply N.mod_lt; lia). }
  destruct (decide (x < 10)%N) as [Hlt | Hge].
  - exists 10. intros s acc. rewrite pretty_N_go_step by done.
    rewrite (N.div_small x 10) by done. rewrite pretty_N_go_0, Hd.
    by rewrite (N.mod_small x 10) by done.
  - destruct (IH (x `div` 10)%N) as [p Hp].
    { apply N.div_lt; lia. }
    { apply N.div_str_pos; lia. }
    exists (p * 10). intros s acc. rewrite pretty_N_go_step by done.
    rewrite Hp, Hd. cbn.
    assert (Heq : (default 0 acc * p + Z.of_N (x `div` 10)) * 10 +
                  Z.of_N (x `mod` 10) =
                  default 0 acc * (p * 10) + Z.of_N x).
    { pose proof (N.div_mod x 10). lia. }
    by rewrite Heq.
Qed.

(** The numeral of a positive number starts with a digit from 1 to 9. *)
Lemma pretty_N_go_head (x : N) (s : string) :
  (0 < x)%N ->
  exists k r, (1 <= k <= 9)%N /\ pretty_N_go x s = String (pretty_N_char k) r.
Proof.
  revert s. induction (N.lt_wf_0 x) as [x _ IH]. intros s Hpos.
  rewrite pretty_N_go_step by done.
  destruct (decide (x < 10)%N) as [Hlt | Hge].
  - rewrite (N.div_small x 10) by done. rewrite pretty_N_go_0.
    exists x, s. split; [lia |]. by rewrite (N.mod_small x 10) by done.
  - apply IH; [apply N.div_lt; lia | apply N.div_str_pos; lia].
Qed.

Lemma parseInt_numeral (k : N) (r : string) :
  (1 <= k <= 9)%N ->
  JS.parseInt (String (pretty_N_char k) r) =
    match JS.digits 10 (String (pretty_N_char k) r) None with
    | Some m => Some (1 * m)
    | None => None
    end /\
  JS.parseInt (String "-" (String (pretty_N_char k) r)) =
    match JS.digits 10 (String (pretty_N_char k) r) None with
    | Some m => Some (-1 * m)
    | None => None
    end.
Proof.
  intros H.
  assert (k = 1 \/ k = 2 \/ k = 3 \/ k = 4 \/ k = 5 \/ k = 6 \/
          k = 7 \/ k = 8 \/ k = 9)%N as Hk by lia.
  repeat destruct Hk as [-> | Hk]; try subst k; split; reflexivity.
Qed.

Lemma parseInt_pretty_pos (q : positive) :
  JS.parseInt (pretty (N.pos q)) = Some (Z.pos q) /\
  JS.parseInt ("-" +:+ pretty (N.pos q)) = Some (Z.neg q).
Proof.
  assert (Hpos : (0 < N.pos q)%N) by lia.
  change (pretty (N.pos q)) with (pretty_N_go (N.pos q) "").
  destruct (pretty_N_go_head (N.pos q) "" Hpos) as (k & r & Hk & Hhead).
  destruct (digits_pretty_N_go (N.pos q) Hpos) as (p & Hp).
  specialize (Hp "" None). rewrite Hhead in Hp |- *.
  change ("-" +:+ String (pretty_N_char k) r)
    with (String "-" (String (pretty_N_char k) r)).
  destruct (parseInt_numeral k r Hk) as [-> ->]. rewrite Hp.
  cbn [JS.digits default]. split; f_equal; lia.
Qed.

(** X21.  Parsing undoes printing on the integers a Number holds exactly: for
    every n from -2^53 to 2^53, negative ones included, the decimal numeral
    of n parses to n, so a [wait-time] given as that numeral resolves to n
    when n is at most 300, and to 300 above.  (Beyond that range
    JavaScript's [parseInt] rounds to a double; nothing is said there.) *)
Theorem wait_time_numeral_round_trip (n : Z) :
  -9007199254740992 <= n <= 9007199254740992 ->
  JS.parseInt (pretty n) = Some n /\
  resolveWaitTime (pretty n) = Z.min n 300.
Proof.
  intros _.
  assert (Hparse : JS.parseInt (pretty n) = Some n).
  { destruct n as [| q | q]; [reflexivity | |].
    - apply (parseInt_pretty_pos q).
    - apply (parseInt_pretty_pos q). }
  split; [done |]. unfold resolveWaitTime. rewrite Hparse. cbv zeta.
  destruct (Z.gtb_spec n 300); lia.
Qed.

Lemma wait_time_numeral_witness :
  JS.parseInt "250" = Some 250 /\ resolveWaitTime "250" = 250.
Proof.
  refine (wait_time_numeral_round_trip 250 _). lia.
Defined.
